(** * Douyin image tool: the link-resolution pipeline

    A shallow embedding of [src/product_parser.py] (class
    [DouyinProductParser]) and [src/video_parser.py] (class
    [DouyinVideoParser]), and the properties of the resolution pipeline
    stated over it.

    Conventions of the embedding.
    - A Python [str] is a Rocq [string]; each character stands for one code
      point in the range 0..255, so [len] is [String.length].  On that range
      [str.lower] and the regex class [\d] are exactly [lower] and
      [is_digit] below.
    - A decoded JSON document is a [json] tree.  A [dict] is an association
      list in insertion order (keys pairwise distinct, as [json.loads]
      produces them); numbers are integers.
    - Code that can raise returns a [result]; the exception is an [exn]
      value holding the class name and the message, which is all that the
      [raise] statements of the source attach to it.
    - Network and browser I/O is not executed: a function that awaits a
      response takes the response (or the outcome of the awaited call) as
      an argument. *)

From Stdlib Require Import String Ascii List ZArith Bool Arith Lia DecimalString
  Permutation.
Import ListNotations.
Open Scope string_scope.
Open Scope list_scope.
Open Scope nat_scope.

(* ================================================================== *)
(** * Python strings *)
(* ================================================================== *)

Module PyStr.

(** [c.lower()] for one code point below 256: the letters A-Z and the
    Latin-1 capitals U+00C0..U+00DE (U+00D7, the multiplication sign,
    apart) move up by 32; every other code point is unchanged. *)
Definition lower_char (c : ascii) : ascii :=
  let n := nat_of_ascii c in
  if ((65 <=? n) && (n <=? 90))
     || ((192 <=? n) && (n <=? 222) && negb (n =? 215))
  then ascii_of_nat (n + 32)
  else c.

(** [s.lower()] *)
Fixpoint lower (s : string) : string :=
  match s with
  | EmptyString => EmptyString
  | String c s' => String (lower_char c) (lower s')
  end.

(** [p in s] for two strings: [p] occurs as a contiguous substring. *)
Fixpoint contains (p s : string) : bool :=
  if prefix p s then true
  else match s with
       | EmptyString => false
       | String _ s' => contains p s'
       end.

(** [s.replace(old, new)] for a non-empty [old]: occurrences are found
    left to right and do not overlap.  [skip] counts the characters of
    the occurrence just replaced that are still to be dropped. *)
Fixpoint replace_from (old new : string) (skip : nat) (s : string) : string :=
  match s with
  | EmptyString => EmptyString
  | String c s' =>
      match skip with
      | S k => replace_from old new k s'
      | O =>
          if prefix old s
          then (new ++ replace_from old new (String.length old - 1) s')%string
          else String c (replace_from old new 0 s')
      end
  end.

(** With an empty [old] Python puts [new] before every character and at
    the end. *)
Fixpoint intersperse (new s : string) : string :=
  match s with
  | EmptyString => new
  | String c s' => (new ++ String c (intersperse new s'))%string
  end.

Definition replace (old new s : string) : string :=
  match old with
  | EmptyString => intersperse new s
  | _ => replace_from old new 0 s
  end.

(** The regex class [\d] on code points below 256: the digits 0-9. *)
Definition is_digit (c : ascii) : bool :=
  let n := nat_of_ascii c in (48 <=? n) && (n <=? 57).

(** The longest run of digits at the head of [s], and what follows it. *)
Fixpoint span_digits (s : string) : string * string :=
  match s with
  | String c s' =>
      if is_digit c
      then let (d, r) := span_digits s' in (String c d, r)
      else (EmptyString, s)
  | EmptyString => (EmptyString, EmptyString)
  end.

(** What is left of [s] after its first [n] characters. *)
Fixpoint drop (n : nat) (s : string) : string :=
  match n, s with
  | S k, String _ s' => drop k s'
  | _, _ => s
  end.

(** [re.search(lit + r'(\d+)', s)]: the leftmost place where the literal
    [lit] is followed by a digit; group 1 is the whole run of digits
    there (the quantifier is greedy). *)
Fixpoint search_lit_digits (lit s : string) : option string :=
  let here :=
    if prefix lit s
    then match span_digits (drop (String.length lit) s) with
         | (EmptyString, _) => None
         | (d, _) => Some d
         end
    else None in
  match here with
  | Some d => Some d
  | None => match s with
            | EmptyString => None
            | String _ s' => search_lit_digits lit s'
            end
  end.

End PyStr.

(* ================================================================== *)
(** * Exceptions and results *)
(* ================================================================== *)

(** A raised Python exception: the name of its class and the message it
    was built with. *)
Record exn : Type := mkExn { exn_class : string; exn_msg : string }.

Inductive result (A : Type) : Type :=
| Ok (a : A)
| Err (e : exn).
Arguments Ok {A} a.
Arguments Err {A} e.

Definition bind {A B : Type} (r : result A) (k : A -> result B) : result B :=
  match r with
  | Ok a => k a
  | Err e => Err e
  end.

Notation "x <- r ;; k" := (bind r (fun x => k))
  (at level 61, r at next level, right associativity).

Definition TypeError (msg : string) : exn := mkExn "TypeError" msg.
Definition AttributeError (msg : string) : exn := mkExn "AttributeError" msg.
Definition KeyError (msg : string) : exn := mkExn "KeyError" msg.
Definition IndexError (msg : string) : exn := mkExn "IndexError" msg.
Definition ValueError (msg : string) : exn := mkExn "ValueError" msg.
Definition PyException (msg : string) : exn := mkExn "Exception" msg.

(** [str(e)] of an exception built with one message. *)
Definition str_of_exn (e : exn) : string := exn_msg e.

(* ================================================================== *)
(** * Decoded JSON values and the Python operations used on them *)
(* ================================================================== *)

(** What [json.loads] returns.  A [dict] keeps its items in insertion
    order. *)
#[warnings="-register-all"]
Inductive json : Type :=
| JNull
| JBool (b : bool)
| JNum (n : Z)
| JStr (s : string)
| JArr (items : list json)
| JObj (fields : list (string * json)).

(** Induction over a JSON tree, with the hypothesis for every item of a
    list and every value of a dict. *)
Section JsonInduction.
Variable P : json -> Prop.
Hypothesis H_null : P JNull.
Hypothesis H_bool : forall b, P (JBool b).
Hypothesis H_num : forall n, P (JNum n).
Hypothesis H_str : forall s, P (JStr s).
Hypothesis H_arr : forall items, Forall P items -> P (JArr items).
Hypothesis H_obj :
  forall fields, Forall (fun kv => P (snd kv)) fields -> P (JObj fields).

Fixpoint json_tree_ind (v : json) : P v :=
  match v with
  | JNull => H_null
  | JBool b => H_bool b
  | JNum n => H_num n
  | JStr s => H_str s
  | JArr items =>
      H_arr items
        ((fix all (l : list json) : Forall P l :=
            match l with
            | [] => Forall_nil P
            | x :: rest => Forall_cons x (json_tree_ind x) (all rest)
            end) items)
  | JObj fields =>
      H_obj fields
        ((fix all (l : list (string * json)) : Forall (fun kv => P (snd kv)) l :=
            match l with
            | [] => Forall_nil _
            | kv :: rest => Forall_cons kv (json_tree_ind (snd kv)) (all rest)
            end) fields)
  end.
End JsonInduction.

Module Py.
Import PyStr.

(** [type(v).__name__] *)
Definition type_name (v : json) : string :=
  match v with
  | JNull => "NoneType"
  | JBool _ => "bool"
  | JNum _ => "int"
  | JStr _ => "str"
  | JArr _ => "list"
  | JObj _ => "dict"
  end.

Definition no_attribute (v : json) (attr : string) : exn :=
  AttributeError ("'" ++ type_name v ++ "' object has no attribute '" ++ attr ++ "'")%string.

(** [bool(v)] *)
Definition truthy (v : json) : bool :=
  match v with
  | JNull => false
  | JBool b => b
  | JNum n => negb (n =? 0)%Z
  | JStr s => negb (s =? "")%string
  | JArr l => match l with [] => false | _ => true end
  | JObj l => match l with [] => false | _ => true end
  end.

(** [a or b]: [a] when it is truthy, [b] otherwise. *)
Definition py_or (a b : json) : json := if truthy a then a else b.

Definition isinstance_str (v : json) : bool :=
  match v with JStr _ => true | _ => false end.
Definition isinstance_list (v : json) : bool :=
  match v with JArr _ => true | _ => false end.
Definition isinstance_dict (v : json) : bool :=
  match v with JObj _ => true | _ => false end.

(** Lookup of a key among the items of a dict. *)
Fixpoint lookup (k : string) (fields : list (string * json)) : option json :=
  match fields with
  | [] => None
  | (k', v) :: rest => if (k =? k')%string then Some v else lookup k rest
  end.

(** [d.get(k, default)] on the items of a dict. *)
Definition get (fields : list (string * json)) (k : string) (default : json) : json :=
  match lookup k fields with
  | Some v => v
  | None => default
  end.

(** [v.get(k, default)] on a value of any type: only a dict has [get]. *)
Definition attr_get (v : json) (k : string) (default : json) : result json :=
  match v with
  | JObj fields => Ok (get fields k default)
  | _ => Err (no_attribute v "get")
  end.

(** The characters of a string, each as a one-character string. *)
Fixpoint chars (s : string) : list json :=
  match s with
  | EmptyString => []
  | String c s' => JStr (String c EmptyString) :: chars s'
  end.

(** The values [for x in v] runs through: the items of a list, the
    characters of a string, the keys of a dict. *)
Definition iter (v : json) : result (list json) :=
  match v with
  | JArr l => Ok l
  | JStr s => Ok (chars s)
  | JObj fields => Ok (map (fun kv => JStr (fst kv)) fields)
  | _ => Err (TypeError ("'" ++ type_name v ++ "' object is not iterable")%string)
  end.

(** [v[0]] *)
Definition index0 (v : json) : result json :=
  match v with
  | JArr (x :: _) => Ok x
  | JArr [] => Err (IndexError "list index out of range")
  | JStr (String c _) => Ok (JStr (String c EmptyString))
  | JStr EmptyString => Err (IndexError "string index out of range")
  | JObj _ => Err (KeyError "0")
  | _ => Err (TypeError ("'" ++ type_name v ++ "' object is not subscriptable")%string)
  end.

(** [x == s] for a string literal [s]. *)
Definition eq_str (s : string) (x : json) : bool :=
  match x with JStr t => (s =? t)%string | _ => false end.

(** [s in v] for a string literal [s]: a substring of a string, an item
    of a list, a key of a dict. *)
Definition str_in (s : string) (v : json) : result bool :=
  match v with
  | JStr t => Ok (contains s t)
  | JArr l => Ok (existsb (eq_str s) l)
  | JObj fields => Ok (existsb (fun kv => (s =? fst kv)%string) fields)
  | _ => Err (TypeError ("argument of type '" ++ type_name v ++ "' is not iterable")%string)
  end.

(** [v.replace(old, new)]: only a string has [replace]. *)
Definition attr_replace (old new : string) (v : json) : result json :=
  match v with
  | JStr s => Ok (JStr (replace old new s))
  | _ => Err (no_attribute v "replace")
  end.

(** [v == 0]: [False] and [0] are equal in Python. *)
Definition eq_zero (v : json) : bool :=
  match v with
  | JNum n => (n =? 0)%Z
  | JBool b => negb b
  | _ => false
  end.

End Py.

(* ================================================================== *)
(** * src/product_parser.py *)
(* ================================================================== *)

Module ProductParser.
Import PyStr Py.

(** ** [_is_valid_product_image] *)

Definition exclude_patterns : list string :=
  [ "icon"; "logo"; "avatar"; "emoji"; "badge";
    "loading"; "placeholder"; "default";
    "1x1"; "2x2"; "blank"; "transparent";
    "sprite"; "btn"; "button" ].

Definition image_exts : list string := [ ".jpg"; ".jpeg"; ".png"; ".webp" ].

Definition bytedance_cdns : list string :=
  [ "ecombdimg.com"; "bytetos.com"; "douyinpic.com"; "byteimg.com" ].

(** [any(p in s for p in ps)] *)
Definition any_in (ps : list string) (s : string) : bool :=
  existsb (fun p => contains p s) ps.

(** The predicate on a [str], as its signature declares it. *)
Definition _is_valid_product_image (url : string) : bool :=
  if (url =? "")%string then false
  else if String.length url <? 20 then false
  else
    let url_lower := lower url in
    if any_in exclude_patterns url_lower then false
    else
      let is_image_ext := any_in image_exts url_lower in
      let is_bytedance_cdn := any_in bytedance_cdns url_lower in
      if negb is_image_ext && negb is_bytedance_cdn then false
      else true.

(** The same body run on a value whose type the caller has not checked:
    [not url] answers for every falsy value, [len(url)] raises on a
    number or a boolean, and [url.lower()] raises on a list or a dict
    of 20 items or more. *)
Definition _is_valid_product_image_dyn (url : json) : result bool :=
  if negb (truthy url) then Ok false
  else match url with
       | JStr s => Ok (_is_valid_product_image s)
       | JArr l =>
           if length l <? 20 then Ok false else Err (no_attribute url "lower")
       | JObj l =>
           if length l <? 20 then Ok false else Err (no_attribute url "lower")
       | _ =>
           Err (TypeError ("object of type '" ++ type_name url ++ "' has no len()")%string)
       end.

(** ** [str(value)]

    The text [str] gives for a decoded JSON value, used by the targeted
    search to look for image-related words. *)

Definition hex_digit (n : nat) : ascii :=
  if n <? 10 then ascii_of_nat (48 + n) else ascii_of_nat (87 + n).

(** The backslash character and the two quote characters. *)
Definition backslash : ascii := ascii_of_nat 92.
Definition squote : ascii := ascii_of_nat 39.
Definition dquote : ascii := ascii_of_nat 34.

Definition has_char (c : ascii) (s : string) : bool :=
  contains (String c EmptyString) s.

(** Code points below 256 that [repr] writes as they are: the ASCII
    range from the space to the tilde, and U+00A1..U+00FF without the
    soft hyphen U+00AD. *)
Definition printable (n : nat) : bool :=
  ((32 <=? n) && (n <? 127)) || ((161 <=? n) && negb (n =? 173)).

Definition repr_char (quote c : ascii) : string :=
  let n := nat_of_ascii c in
  if (c =? quote)%char || (c =? backslash)%char
  then String backslash (String c EmptyString)
  else if n =? 9 then String backslash "t"
  else if n =? 10 then String backslash "n"
  else if n =? 13 then String backslash "r"
  else if printable n then String c EmptyString
  else String backslash
         (String "x" (String (hex_digit (n / 16))
                        (String (hex_digit (n mod 16)) EmptyString))).

Fixpoint repr_chars (quote : ascii) (s : string) : string :=
  match s with
  | EmptyString => EmptyString
  | String c s' => (repr_char quote c ++ repr_chars quote s')%string
  end.

(** [repr] of a string: single quotes, unless the string holds a single
    quote and no double quote. *)
Definition repr_str (s : string) : string :=
  let quote := if has_char squote s && negb (has_char dquote s)
               then dquote else squote in
  (String quote (repr_chars quote s) ++ String quote EmptyString)%string.

Definition repr_int (n : Z) : string :=
  DecimalString.NilZero.string_of_int (Z.to_int n).

Fixpoint repr (v : json) : string :=
  match v with
  | JNull => "None"
  | JBool true => "True"
  | JBool false => "False"
  | JNum n => repr_int n
  | JStr s => repr_str s
  | JArr l =>
      ("[" ++
       (fix items (l : list json) : string :=
          match l with
          | [] => ""
          | x :: rest =>
              repr x ++ match rest with
                        | [] => ""
                        | _ => ", " ++ items rest
                        end
          end) l
       ++ "]")%string
  | JObj fields =>
      ("{" ++
       (fix items (fs : list (string * json)) : string :=
          match fs with
          | [] => ""
          | (k, x) :: rest =>
              repr_str k ++ ": " ++ repr x
              ++ match rest with
                 | [] => ""
                 | _ => ", " ++ items rest
                 end
          end) fields
       ++ "}")%string
  end.

(** ** [_find_product_in_router] *)

Definition container_keys : list string :=
  [ "product"; "goods"; "item"; "productinfo"; "goodsinfo"; "data" ].

Definition image_words : list string := [ "images"; "img"; "pic"; "gallery" ].

(** [key_lower in keys] *)
Definition mem (k : string) (keys : list string) : bool :=
  existsb (String.eqb k) keys.

(** [if result: return result] on an [Optional[dict]]. *)
Definition found (r : option json) : bool :=
  match r with
  | Some v => truthy v
  | None => false
  end.

Fixpoint _find_product_in_router (data : json) (depth : nat) {struct data}
  : option json :=
  if 15 <? depth then None
  else
    match data with
    | JObj fields =>
        (fix items (fs : list (string * json)) : option json :=
           match fs with
           | [] => None
           | (key, value) :: rest =>
               let key_lower := lower key in
               if mem key_lower container_keys
                  && isinstance_dict value
                  && any_in image_words (lower (repr value))
               then Some value
               else
                 let result :=
                   if isinstance_dict value || isinstance_list value
                   then _find_product_in_router value (S depth)
                   else None in
                 if found result then result else items rest
           end) fields
    | JArr l =>
        (fix elems (l : list json) : option json :=
           match l with
           | [] => None
           | item :: rest =>
               let result :=
                 if isinstance_dict item || isinstance_list item
                 then _find_product_in_router item (S depth)
                 else None in
               if found result then result else elems rest
           end) l
    | _ => None
    end.

(** ** [_extract_images_from_json] *)

(** The [result] dict of the function: its four keys. *)
Record images : Type := mkImages {
  main : list string;
  detail : list string;
  title : string;
  video : option string
}.

Definition empty_images : images := mkImages [] [] "" None.

Definition image_keys : list string :=
  [ "images"; "imgs"; "image_list"; "pic_list"; "gallery"; "photos" ].
Definition main_keys : list string :=
  [ "main_img"; "main_image"; "cover"; "thumb"; "primary" ].
Definition detail_keys : list string :=
  [ "detail_images"; "desc_images"; "detail_pics" ].
Definition title_keys : list string :=
  [ "title"; "name"; "product_name"; "goods_name" ].
Definition video_keys : list string := [ "video"; "video_url"; "video_src" ].

(** [any(k in key_lower for k in keys)] *)
Definition key_matches (keys : list string) (key_lower : string) : bool :=
  any_in keys key_lower.

(** [img.get('url') or img.get('src') or img.get('img')] *)
Definition img_url_of (fields : list (string * json)) : json :=
  py_or (get fields "url" JNull)
        (py_or (get fields "src" JNull) (get fields "img" JNull)).

(** One item [img] of an image list: the URL the loop body appends, if
    it appends one.  A string is checked with [isinstance] first; the
    URL taken out of a dict goes to the predicate unchecked. *)
Definition candidate (img : json) : result (option string) :=
  match img with
  | JStr s => Ok (if _is_valid_product_image s then Some s else None)
  | JObj fields =>
      let img_url := img_url_of fields in
      if truthy img_url
      then
        ok <- _is_valid_product_image_dyn img_url ;;
        Ok (match img_url with
            | JStr s => if ok then Some s else None
            | _ => None
            end)
      else Ok None
  | _ => Ok None
  end.

Definition append_main (res : images) (u : string) : images :=
  mkImages (main res ++ [u]) (detail res) (title res) (video res).
Definition append_detail (res : images) (u : string) : images :=
  mkImages (main res) (detail res ++ [u]) (title res) (video res).

(** [for img in value:] of the main-image keys. *)
Fixpoint main_loop (value : list json) (res : images) : result images :=
  match value with
  | [] => Ok res
  | img :: rest =>
      c <- candidate img ;;
      main_loop rest (match c with Some u => append_main res u | None => res end)
  end.

(** [for img in value:] of the detail-image keys. *)
Fixpoint detail_loop (value : list json) (res : images) : result images :=
  match value with
  | [] => Ok res
  | img :: rest =>
      c <- candidate img ;;
      detail_loop rest (match c with Some u => append_detail res u | None => res end)
  end.

(** The append of the generic image-list keys: to [main] while it has
    fewer than 5 entries, to [detail] after that. *)
Definition append_generic (res : images) (u : string) : images :=
  if length (main res) <? 5 then append_main res u else append_detail res u.

(** [for img in value:] of the generic image-list keys. *)
Fixpoint generic_loop (value : list json) (res : images) : result images :=
  match value with
  | [] => Ok res
  | img :: rest =>
      c <- candidate img ;;
      generic_loop rest (match c with Some u => append_generic res u | None => res end)
  end.

(** The step of the main-image keys: a valid string, or the valid entries
    of a list. *)
Definition main_step (key_lower : string) (value : json) (res : images)
  : result images :=
  if key_matches main_keys key_lower
  then match value with
       | JStr s => Ok (if _is_valid_product_image s then append_main res s else res)
       | JArr l => main_loop l res
       | _ => Ok res
       end
  else Ok res.

(** The step of the detail-image keys: the valid entries of a list. *)
Definition detail_step (key_lower : string) (value : json) (res : images)
  : result images :=
  if key_matches detail_keys key_lower
  then match value with
       | JArr l => detail_loop l res
       | _ => Ok res
       end
  else Ok res.

(** The step of the generic image-list keys. *)
Definition generic_step (key_lower : string) (value : json) (res : images)
  : result images :=
  if key_matches image_keys key_lower
  then match value with
       | JArr l => generic_loop l res
       | _ => Ok res
       end
  else Ok res.

(** [result['title'] = value] and [result['video'] = value], for a string
    under a title key or a video key. *)
Definition scalar_step (key_lower : string) (value : json) (res : images) : images :=
  match value with
  | JStr s =>
      let res := if mem key_lower title_keys
                 then mkImages (main res) (detail res) s (video res)
                 else res in
      if mem key_lower video_keys
      then mkImages (main res) (detail res) (title res) (Some s)
      else res
  | _ => res
  end.

(** The body of [for key, value in data.items():] before the recursive
    call. *)
Definition scan_item (key : string) (value : json) (res : images) : result images :=
  let key_lower := lower key in
  let res := scalar_step key_lower value res in
  res <- main_step key_lower value res ;;
  res <- detail_step key_lower value res ;;
  generic_step key_lower value res.

(** [not result['video']] *)
Definition video_unset (v : option string) : bool :=
  match v with
  | None => true
  | Some s => (s =? "")%string
  end.

(** The merge of a nested result under a dict: the lists are extended,
    the title and the video are taken when still unset. *)
Definition merge_nested (res : images) (nested : option images) : images :=
  match nested with
  | None => res
  | Some n =>
      mkImages (main res ++ main n) (detail res ++ detail n)
               (if (title res =? "")%string then title n else title res)
               (if video_unset (video res) then video n else video res)
  end.

(** The merge of a nested result under a list: the lists only. *)
Definition merge_lists (res : images) (nested : option images) : images :=
  match nested with
  | None => res
  | Some n =>
      mkImages (main res ++ main n) (detail res ++ detail n)
               (title res) (video res)
  end.

(** [list(dict.fromkeys(l))]: the first occurrence of each value, in
    order. *)
Fixpoint dedup_from (seen l : list string) : list string :=
  match l with
  | [] => []
  | x :: rest =>
      if mem x seen then dedup_from seen rest
      else x :: dedup_from (x :: seen) rest
  end.
Definition dedup (l : list string) : list string := dedup_from [] l.

Definition nonempty {A : Type} (l : list A) : bool :=
  match l with [] => false | _ => true end.

Definition finish (res : images) : option images :=
  let res := mkImages (dedup (main res)) (dedup (detail res))
                      (title res) (video res) in
  if nonempty (main res) || nonempty (detail res) then Some res else None.

Fixpoint _extract_images_from_json (data : json) (depth : nat) {struct data}
  : result (option images) :=
  if 10 <? depth then Ok None
  else
    res <- match data with
           | JObj fields =>
               (fix items (fs : list (string * json)) (res : images)
                  : result images :=
                  match fs with
                  | [] => Ok res
                  | (key, value) :: rest =>
                      res <- scan_item key value res ;;
                      res <- (if isinstance_dict value || isinstance_list value
                              then
                                nested <- _extract_images_from_json value (S depth) ;;
                                Ok (merge_nested res nested)
                              else Ok res) ;;
                      items rest res
                  end) fields empty_images
           | JArr l =>
               (fix elems (l : list json) (res : images) : result images :=
                  match l with
                  | [] => Ok res
                  | item :: rest =>
                      res <- (if isinstance_dict item || isinstance_list item
                              then
                                nested <- _extract_images_from_json item (S depth) ;;
                                Ok (merge_lists res nested)
                              else Ok res) ;;
                      elems rest res
                  end) l empty_images
           | _ => Ok empty_images
           end ;;
    Ok (finish res).

(** The loop [for key, value in data.items():] of the function on the
    items [fs] of a dict at depth [depth], from the result [res] the
    items before them have left: the steps of the key, then the recursive
    call on a dict or list value and the merge of what it returns. *)
Fixpoint scan_fields (depth : nat) (fs : list (string * json)) (res : images)
  : result images :=
  match fs with
  | [] => Ok res
  | (key, value) :: rest =>
      res <- scan_item key value res ;;
      res <- (if isinstance_dict value || isinstance_list value
              then
                nested <- _extract_images_from_json value (S depth) ;;
                Ok (merge_nested res nested)
              else Ok res) ;;
      scan_fields depth rest res
  end.

(** ** [_parse_html], the [_ROUTER_DATA] block

    The lists and fields the function fills before it builds its
    [ProductInfo]. *)
Record page_state : Type := mkPageState {
  st_main_images : list string;
  st_detail_images : list string;
  st_title : string;
  st_video_url : option string
}.

Definition empty_page_state : page_state := mkPageState [] [] "" None.

(** [main_images.extend(images.get('main', []))] and the three lines
    after it. *)
Definition take_images (st : page_state) (im : images) : page_state :=
  mkPageState (st_main_images st ++ main im)
              (st_detail_images st ++ detail im)
              (title im) (video im).

(** The block run on the decoded [_ROUTER_DATA]: targeted search, then
    generic extraction on the object found. *)
Definition mine_router_data (router_data : json) (st : page_state)
  : result page_state :=
  let product_data := _find_product_in_router router_data 0 in
  if found product_data
  then match product_data with
       | Some pd =>
           images <- _extract_images_from_json pd 0 ;;
           Ok (match images with
               | Some im => take_images st im
               | None => st
               end)
       | None => Ok st
       end
  else Ok st.

(** ** Classification of the harvested URLs

    [all_images] is a Python set; the list given here holds its elements
    in the order the [for] loop enumerates them. *)

Definition main_keywords_playwright : list string :=
  [ "main"; "primary"; "cover"; "thumb"; "origin" ].

Definition main_keywords_html : list string :=
  [ "main"; "primary"; "cover"; "thumb" ].

(** The test of [_parse_with_playwright]: the keywords are looked for in
    the lower-cased URL. *)
Definition is_main_playwright (img_url : string) : bool :=
  any_in main_keywords_playwright (lower img_url).

(** The test of [_parse_html]: the keywords are looked for in the URL as
    it is. *)
Definition is_main_html (img_url : string) : bool :=
  any_in main_keywords_html img_url.

(** [for img_url in all_images: ... append ...] *)
Fixpoint classify_loop (is_main : string -> bool) (all_images : list string)
         (main_images detail_images : list string)
  : list string * list string :=
  match all_images with
  | [] => (main_images, detail_images)
  | img_url :: rest =>
      if is_main img_url
      then classify_loop is_main rest (main_images ++ [img_url]) detail_images
      else classify_loop is_main rest main_images (detail_images ++ [img_url])
  end.

(** [if not main_images and detail_images:] the first 5 become the main
    images. *)
Definition promote (lists : list string * list string)
  : list string * list string :=
  let (main_images, detail_images) := lists in
  if negb (nonempty main_images) && nonempty detail_images
  then (firstn 5 detail_images, skipn 5 detail_images)
  else (main_images, detail_images).

Definition classify_playwright (all_images : list string)
  : list string * list string :=
  promote (classify_loop is_main_playwright all_images [] []).

Definition classify_html (all_images : list string)
  : list string * list string :=
  promote (classify_loop is_main_html all_images [] []).

(** ** [extract_product_id] *)

(** The tail [(?:\?|$|&)] of the fourth pattern, tried on what follows
    the digits: [$] holds at the end of the text and before a newline
    that ends it. *)
Definition ends_id (r : string) : bool :=
  match r with
  | EmptyString => true
  | String c r' =>
      (c =? "?")%char || (c =? "&")%char
      || ((nat_of_ascii c =? 10) && (r' =? "")%string)
  end.

(** [re.search(r'/(\d{15,})(?:\?|$|&)', s)]: the leftmost slash followed
    by a run of 15 digits or more that ends as [ends_id] asks.  A
    shorter part of the run cannot match, as a digit would follow it. *)
Fixpoint search_long_id (s : string) : option string :=
  let here :=
    match s with
    | String c s' =>
        if (c =? "/")%char
        then let (d, r) := span_digits s' in
             if (15 <=? String.length d) && ends_id r then Some d else None
        else None
    | EmptyString => None
    end in
  match here with
  | Some d => Some d
  | None => match s with
            | EmptyString => None
            | String _ s' => search_long_id s'
            end
  end.

(** The four patterns, in their order. *)
Definition id_patterns : list (string -> option string) :=
  [ search_lit_digits "commodity_id=";
    search_lit_digits "id=";
    search_lit_digits "product_id=";
    search_long_id ].

(** [for pattern in patterns: ... return match.group(1)] *)
Fixpoint first_match (patterns : list (string -> option string)) (url : string)
  : option string :=
  match patterns with
  | [] => None
  | p :: rest => match p url with
                 | Some d => Some d
                 | None => first_match rest url
                 end
  end.

Definition SHORT_LINK : string := "SHORT_LINK".

(** The two messages of the module, written in their UTF-8 bytes. *)
Definition msg_no_product_id : string := "无法从URL中提取商品ID".

(** The test for a link of the platform, made when no pattern matched. *)
Definition is_douyin_link (url : string) : bool :=
  contains "v.douyin.com" url || contains "douyin.com" url.

Definition extract_product_id (url : string) : result string :=
  match first_match id_patterns url with
  | Some d => Ok d
  | None =>
      if is_douyin_link url
      then Ok SHORT_LINK
      else Err (ValueError msg_no_product_id)
  end.

(** ** [_parse_with_playwright], the steps around the browser *)

(** [if product_id == 'unknown':] the id is looked for in the final URL
    of the page, with the pattern [id=(\d+)]. *)
Definition recover_product_id (product_id final_url : string) : string :=
  if (product_id =? "unknown")%string
  then match search_lit_digits "id=" final_url with
       | Some d => d
       | None => product_id
       end
  else product_id.

(** The test that ends the wait for the page: the image host is named in
    the HTML, or the HTML is longer than 80000 characters. *)
#[warnings="-abstract-large-number"]
Definition content_ready (html_check : string) : bool :=
  contains "ecombdimg.com" html_check || (80000 <? String.length html_check).

(** [for i in range(30):] the loop that samples the page.  [content i] is
    what [page.content()] gives for the sample of index [i] (or what it
    raises); [n] samples are left.  The result is the number of samples
    taken and [content_loaded]. *)
Fixpoint poll_from (content : nat -> result string) (i n : nat)
  : result (nat * bool) :=
  match n with
  | O => Ok (i, false)
  | S n' =>
      html_check <- content i ;;
      if content_ready html_check
      then Ok (S i, true)
      else poll_from content (S i) n'
  end.

Definition poll (content : nat -> result string) : result (nat * bool) :=
  poll_from content 0 30.

(** ** [parse] *)

Record ProductInfo : Type := mkProductInfo {
  product_id : string;
  pi_title : string;
  main_images : list string;
  detail_images : list string;
  video_url : option string
}.

Definition msg_no_product_info : string :=
  "无法获取商品信息，请检查链接是否正确".

Section Parse.
(** What the two strategies return for a URL and a product id.  Each
    catches every exception of its own body and returns [None]
    then. *)
Variable _parse_with_playwright : string -> string -> option ProductInfo.
Variable _parse_html : string -> string -> option ProductInfo.

Definition parse (url : string) : result ProductInfo :=
  product_id <- extract_product_id url ;;
  let is_short_link := (product_id =? SHORT_LINK)%string in
  match _parse_with_playwright url
          (if negb is_short_link then product_id else "unknown") with
  | Some result => Ok result
  | None =>
      match _parse_html url product_id with
      | Some result => Ok result
      | None => Err (ValueError msg_no_product_info)
      end
  end.
End Parse.

End ProductParser.

(* ================================================================== *)
(** * src/video_parser.py *)
(* ================================================================== *)

Module VideoParser.
Import PyStr Py.

(** The fields of a [VideoInfo].  They hold what the decoded response
    holds, whatever its type. *)
Record VideoInfo : Type := mkVideoInfo {
  video_id : json;
  title : json;
  author : json;
  author_id : json;
  cover_url : json;
  video_url : json;
  music_url : json;
  duration : json;
  create_time : json;
  statistics : list (string * json)
}.

(** ** [extract_video_id] *)

Definition extract_video_id (url : string) : option string :=
  match search_lit_digits "/video/" url with
  | Some d => Some d
  | None =>
      match search_lit_digits "modal_id=" url with
      | Some d => Some d
      | None => search_lit_digits "/note/" url
      end
  end.

(** ** Helpers shared by the two extraction functions *)

(** [x.get('url_list', [])] followed by [if url_list: ... url_list[0]],
    for a truthy holder [x]; the empty string when the list is falsy. *)
Definition first_of_url_list (holder : json) : result json :=
  url_list <- attr_get holder "url_list" (JArr []) ;;
  if truthy url_list then index0 url_list else Ok (JStr "").

(** The cover: [item.get('video', {}).get('cover', {})], then the first
    entry of its [url_list]. *)
Definition cover_of (item : json) : result json :=
  video <- attr_get item "video" (JObj []) ;;
  cover <- attr_get video "cover" (JObj []) ;;
  if truthy cover then first_of_url_list cover else Ok (JStr "").

(** The music: [item.get('music', {})], its [play_url], and the first
    entry of the [url_list] there. *)
Definition music_of (item : json) : result json :=
  music <- attr_get item "music" (JObj []) ;;
  if truthy music
  then
    play_url <- attr_get music "play_url" (JObj []) ;;
    if truthy play_url then first_of_url_list play_url else Ok (JStr "")
  else Ok (JStr "").

(** The four counters of the [stats] dict. *)
Definition stats_of (item : json) : result (list (string * json)) :=
  statistics <- attr_get item "statistics" (JObj []) ;;
  digg <- attr_get statistics "digg_count" (JNum 0) ;;
  comment <- attr_get statistics "comment_count" (JNum 0) ;;
  share <- attr_get statistics "share_count" (JNum 0) ;;
  collect <- attr_get statistics "collect_count" (JNum 0) ;;
  Ok [ ("digg_count", digg); ("comment_count", comment);
       ("share_count", share); ("collect_count", collect) ].

(** ** [_extract_video_info_v2] *)

Definition _extract_video_info_v2 (item : json) : result VideoInfo :=
  video_id <- attr_get item "aweme_id" (JStr "") ;;
  title <- attr_get item "desc" (JStr "") ;;
  author_info <- attr_get item "author" (JObj []) ;;
  author <- attr_get author_info "nickname" (JStr "") ;;
  author_id <- attr_get author_info "uid" (JStr "") ;;
  cover_url <- cover_of item ;;
  video <- attr_get item "video" (JObj []) ;;
  play_addr <- attr_get video "play_addr" (JObj []) ;;
  video_url <-
    (if truthy play_addr
     then
       url_list <- attr_get play_addr "url_list" (JArr []) ;;
       if truthy url_list
       then
         first <- index0 url_list ;;
         video_url <- attr_replace "watermark=1" "watermark=0" first ;;
         attr_replace "playwm" "play" video_url
       else Ok (JStr "")
     else Ok (JStr "")) ;;
  music_url <- music_of item ;;
  stats <- stats_of item ;;
  video' <- attr_get item "video" (JObj []) ;;
  duration <- attr_get video' "duration" (JNum 0) ;;
  create_time <- attr_get item "create_time" (JNum 0) ;;
  Ok (mkVideoInfo video_id title author author_id cover_url video_url
                  music_url duration create_time stats).

(** ** [_parse_from_mobile_api]

    [data] is the decoded body of the response. *)
Definition _parse_from_mobile_api (data : json) : result (option VideoInfo) :=
  status_code <- attr_get data "status_code" JNull ;;
  if negb (eq_zero status_code) then Ok None
  else
    item_list <- attr_get data "item_list" (JArr []) ;;
    if negb (truthy item_list) then Ok None
    else
      aweme_detail <- index0 item_list ;;
      info <- _extract_video_info_v2 aweme_detail ;;
      Ok (Some info).

(** ** [_get_no_watermark_url] *)

(** The body of [for url in url_list:]; [Some] is a [return]. *)
Fixpoint play_addr_loop (url_list : list json) : result (option json) :=
  match url_list with
  | [] => Ok None
  | url :: rest =>
      has_wm <- str_in "watermark" url ;;
      url <- (if has_wm
              then attr_replace "watermark=1" "watermark=0" url
              else Ok url) ;;
      direct <- str_in "aweme.snssdk.com" url ;;
      short <- (if direct then Ok false else str_in "v.douyin.com" url) ;;
      if direct || negb short then Ok (Some url) else play_addr_loop rest
  end.

(** [a < b] on two sort keys: numbers (a boolean counts as 0 or 1) and
    strings compare among themselves; Python raises [TypeError] on
    [None], on a dict and on a mixed pair.  Keys that are lists, which
    Python compares item by item, are not modelled: the comparison
    raises on them here too. *)
Definition as_int (v : json) : option Z :=
  match v with
  | JNum n => Some n
  | JBool b => Some (if b then 1%Z else 0%Z)
  | _ => None
  end.

Definition py_lt (a b : json) : result bool :=
  match as_int a, as_int b with
  | Some x, Some y => Ok (x <? y)%Z
  | _, _ =>
      match a, b with
      | JStr s, JStr t => Ok (String.ltb s t)
      | _, _ =>
          Err (TypeError ("'<' not supported between instances of '"
                          ++ type_name a ++ "' and '" ++ type_name b ++ "'")%string)
      end
  end.

(** [sorted(..., reverse=True)] on keyed items: decreasing keys, items
    with equal keys in their original order. *)
Fixpoint insert_desc (x : json * json) (l : list (json * json))
  : result (list (json * json)) :=
  match l with
  | [] => Ok [x]
  | y :: l' =>
      lt <- py_lt (fst x) (fst y) ;;
      if lt
      then (r <- insert_desc x l' ;; Ok (y :: r))
      else Ok (x :: l)
  end.

Fixpoint sort_desc (l : list (json * json)) : result (list (json * json)) :=
  match l with
  | [] => Ok []
  | x :: rest => (sorted <- sort_desc rest ;; insert_desc x sorted)
  end.

(** The keys [x.get('bit_rate', 0)] of the items, computed before the
    sort starts. *)
Fixpoint keyed (items : list json) : result (list (json * json)) :=
  match items with
  | [] => Ok []
  | x :: rest =>
      k <- attr_get x "bit_rate" (JNum 0) ;;
      r <- keyed rest ;;
      Ok ((k, x) :: r)
  end.

(** The body of [for rate in sorted_rates:]; [Some] is a [return]. *)
Fixpoint bit_rate_loop (sorted_rates : list (json * json)) : result (option json) :=
  match sorted_rates with
  | [] => Ok None
  | (_, rate) :: rest =>
      play_addr <- attr_get rate "play_addr" (JObj []) ;;
      url_list <- attr_get play_addr "url_list" (JArr []) ;;
      if truthy url_list
      then
        first <- index0 url_list ;;
        url <- attr_replace "watermark=1" "watermark=0" first ;;
        Ok (Some url)
      else bit_rate_loop rest
  end.

(** Method 1, the [play_addr] list. *)
Definition from_play_addr (video_info : json) : result (option json) :=
  play_addr <- attr_get video_info "play_addr" (JObj []) ;;
  if truthy play_addr
  then
    url_list <- attr_get play_addr "url_list" (JArr []) ;;
    urls <- iter url_list ;;
    r <- play_addr_loop urls ;;
    match r with
    | Some url => Ok (Some url)
    | None =>
        if truthy url_list
        then
          first <- index0 url_list ;;
          url <- attr_replace "watermark=1" "watermark=0" first ;;
          Ok (Some url)
        else Ok None
    end
  else Ok None.

(** Method 2, the [bit_rate] variants, highest rate first. *)
Definition from_bit_rate (video_info : json) : result (option json) :=
  bit_rate <- attr_get video_info "bit_rate" (JArr []) ;;
  if truthy bit_rate
  then
    items <- iter bit_rate ;;
    ks <- keyed items ;;
    sorted_rates <- sort_desc ks ;;
    bit_rate_loop sorted_rates
  else Ok None.

(** Method 3, the [download_addr] list. *)
Definition from_download_addr (video_info : json) : result (option json) :=
  download_addr <- attr_get video_info "download_addr" (JObj []) ;;
  if truthy download_addr
  then
    url_list <- attr_get download_addr "url_list" (JArr []) ;;
    if truthy url_list
    then (first <- index0 url_list ;; Ok (Some first))
    else Ok None
  else Ok None.

Definition _get_no_watermark_url (aweme_detail : json) : result json :=
  video_info <- attr_get aweme_detail "video" (JObj []) ;;
  r1 <- from_play_addr video_info ;;
  match r1 with
  | Some url => Ok url
  | None =>
      r2 <- from_bit_rate video_info ;;
      match r2 with
      | Some url => Ok url
      | None =>
          r3 <- from_download_addr video_info ;;
          match r3 with
          | Some url => Ok url
          | None => Err (PyException "Cannot find video URL")
          end
      end
  end.

(** ** [_extract_video_info] *)

Definition _extract_video_info (aweme_detail : json) : result VideoInfo :=
  video_id <- attr_get aweme_detail "aweme_id" (JStr "") ;;
  desc <- attr_get aweme_detail "desc" (JStr "") ;;
  title' <- attr_get aweme_detail "title" (JStr "") ;;
  let title := py_or desc title' in
  author_info <- attr_get aweme_detail "author" (JObj []) ;;
  author <- attr_get author_info "nickname" (JStr "") ;;
  uid <- attr_get author_info "uid" (JStr "") ;;
  sec_uid <- attr_get author_info "sec_uid" (JStr "") ;;
  let author_id := py_or uid sec_uid in
  cover_url <- cover_of aweme_detail ;;
  video_url <- _get_no_watermark_url aweme_detail ;;
  music_url <- music_of aweme_detail ;;
  video <- attr_get aweme_detail "video" (JObj []) ;;
  duration <- attr_get video "duration" (JNum 0) ;;
  create_time <- attr_get aweme_detail "create_time" (JNum 0) ;;
  stats <- stats_of aweme_detail ;;
  Ok (mkVideoInfo video_id title author author_id cover_url video_url
                  music_url duration create_time stats).

(** ** [_parse_from_share_page]

    What the regular expressions of the function find in the page:
    group 1 of each of the three video patterns, in their order, and of
    the title, cover and author patterns. *)
Record share_matches : Type := mkShareMatches {
  video_matches : list (option string);
  desc_match : option string;
  cover_match : option string;
  nickname_match : option string
}.

(** The six characters a JSON-escaped slash is written with. *)
Definition u002F : string := "\u002F".

(** [for pattern in video_patterns:] the first pattern that matches
    gives the URL, decoded and with [playwm] turned into [play]. *)
Fixpoint share_video_url (matches : list (option string)) : string :=
  match matches with
  | [] => ""
  | Some g :: _ => replace "playwm" "play" (replace u002F "/" g)
  | None :: rest => share_video_url rest
  end.

Definition or_empty (m : option string) : string :=
  match m with Some g => g | None => "" end.

Definition share_result (share_url : string) (m : share_matches)
  : option VideoInfo :=
  let video_id := or_empty (search_lit_digits "/video/" share_url) in
  let video_url := share_video_url (video_matches m) in
  if (video_url =? "")%string then None
  else
    let title := match desc_match m with
                 | Some g => replace u002F "/" g
                 | None => ""
                 end in
    let cover_url := match cover_match m with
                     | Some g => replace u002F "/" g
                     | None => ""
                     end in
    let author := or_empty (nickname_match m) in
    Some (mkVideoInfo (JStr video_id) (JStr title) (JStr author) (JStr "")
                      (JStr cover_url) (JStr video_url) (JStr "")
                      (JNum 0) (JNum 0) []).

(** ** [parse]

    What the network answers during one call. *)
Record world : Type := mkWorld {
  (** the final URL of the redirect-following request, or what the
      request raises *)
  http_final_url : string -> result string;
  (** the matches in the share page fetched from a URL *)
  share_page : string -> result share_matches;
  (** the decoded body of the mobile API response for a video id *)
  mobile_api : string -> result json;
  (** the decoded body of the web API response for a video id *)
  web_api : string -> result json;
  (** what the [try] body of [_parse_from_webpage] returns or raises *)
  webpage : string -> result VideoInfo
}.

Definition get_real_url (w : world) (short_url : string) : result string :=
  match http_final_url w short_url with
  | Ok u => Ok u
  | Err e => Err (PyException ("Failed to resolve short URL: " ++ str_of_exn e)%string)
  end.

Definition _parse_from_share_page (w : world) (share_url : string)
  : result (option VideoInfo) :=
  m <- share_page w share_url ;;
  Ok (share_result share_url m).

Definition _parse_from_webpage (w : world) (video_id : string) : result VideoInfo :=
  match webpage w video_id with
  | Ok info => Ok info
  | Err e => Err (PyException ("Failed to parse from webpage: " ++ str_of_exn e)%string)
  end.

(** [try: result = ...; if result: return result / except Exception:
    pass]: the result that is returned, if one is. *)
Definition attempt (r : result (option VideoInfo)) : option VideoInfo :=
  match r with
  | Ok (Some info) => Some info
  | _ => None
  end.

Definition try_share (w : world) (real_url : string) : option VideoInfo :=
  if contains "iesdouyin.com/share/video/" real_url
  then attempt (_parse_from_share_page w real_url)
  else None.

Definition try_mobile (w : world) (video_id : string) : option VideoInfo :=
  attempt (data <- mobile_api w video_id ;; _parse_from_mobile_api data).

Definition try_web (w : world) (video_id : string) : option VideoInfo :=
  attempt (data <- web_api w video_id ;;
           status_code <- attr_get data "status_code" JNull ;;
           if eq_zero status_code
           then
             aweme_detail <- attr_get data "aweme_detail" (JObj []) ;;
             if truthy aweme_detail
             then (info <- _extract_video_info aweme_detail ;; Ok (Some info))
             else Ok None
           else Ok None).

(** [not video_id] on the [Optional[str]] of [extract_video_id]. *)
Definition no_id (video_id : option string) : bool :=
  match video_id with
  | None => true
  | Some d => (d =? "")%string
  end.

(** The test that sends a URL through redirect resolution. *)
Definition is_short_link (url : string) : bool :=
  contains "v.douyin.com" url || contains "vm.tiktok.com" url.

(** [real_url]: the URL itself, or what a short link redirects to. *)
Definition resolve (w : world) (url : string) : result string :=
  if is_short_link url then get_real_url w url else Ok url.

Definition msg_no_video_id (real_url : string) : string :=
  ("Cannot extract video ID from URL: " ++ real_url)%string.

Definition parse (w : world) (url : string) : result VideoInfo :=
  real_url <- resolve w url ;;
  match try_share w real_url with
  | Some result => Ok result
  | None =>
      let video_id := extract_video_id real_url in
      if no_id video_id
      then Err (ValueError (msg_no_video_id real_url))
      else
        let video_id := or_empty video_id in
        match try_mobile w video_id with
        | Some result => Ok result
        | None =>
            match try_web w video_id with
            | Some result => Ok result
            | None => _parse_from_webpage w video_id
            end
        end
  end.

End VideoParser.

(* ================================================================== *)
(** * The statements of the specification *)
(* ================================================================== *)

Module Spec.
Import PyStr Py.

(** The disallow-list as the specification enumerates it.  Each entry is
    one of the [exclude_patterns] of the code. *)
Definition disallow_list : list string :=
  [ "icon"; "logo"; "avatar"; "placeholder"; "sprite"; "button"; "blank";
    "transparent"; "emoji"; "badge"; "default"; "1x1"; "2x2" ].

(** The four hosting domains of the allow-list. *)
Definition hosting_domains : list string :=
  [ "ecombdimg.com"; "bytetos.com"; "douyinpic.com"; "byteimg.com" ].

(** The valid image URLs of a list under a generic image-list key, in the
    order of the list: what the loop has to distribute. *)
Fixpoint candidates (value : list json) : result (list string) :=
  match value with
  | [] => Ok []
  | img :: rest =>
      c <- ProductParser.candidate img ;;
      us <- candidates rest ;;
      Ok (match c with Some u => u :: us | None => us end)
  end.

(** The distribution the specification describes: starting from lists
    [main] and [detail], the URLs [us] fill [main] up to 5 entries and the
    rest goes to [detail]. *)
Definition distribute (res : ProductParser.images) (us : list string)
  : ProductParser.images :=
  let room := 5 - length (ProductParser.main res) in
  ProductParser.mkImages
    (ProductParser.main res ++ firstn room us)
    (ProductParser.detail res ++ skipn room us)
    (ProductParser.title res) (ProductParser.video res).

(** The scenario of the specification: the decoded [_ROUTER_DATA]. *)
Definition scenario_url : string := "https://p1-aio.ecombdimg.com/x.jpg".
Definition scenario_item : json := JObj [ ("images", JArr [ JStr scenario_url ]) ].
Definition scenario_tree : json := JObj [ ("a", JObj [ ("item", scenario_item) ]) ].

(** ** Exhaustion of the strategies

    The exception of the model holds a class name and one message, as
    every [raise] of the source builds it; the specification asks for the
    class [ResolutionExhaustedError]. *)
Definition raises_resolution_exhausted {A : Type} (r : result A) : Prop :=
  exists e, r = Err e /\ exn_class e = "ResolutionExhaustedError".

(** A product link for which both strategies come back empty. *)
Definition exhausted_product_url : string :=
  "https://haohuo.jinritemai.com/views/product/item2?id=3456789012345678901".

(** A network on which every video strategy fails: the two API requests
    time out and the page holds no video data. *)
Definition failing_world : VideoParser.world :=
  VideoParser.mkWorld
    (fun _ => Ok "https://www.douyin.com/")
    (fun _ => Err (PyException "timed out"))
    (fun _ => Err (PyException "timed out"))
    (fun _ => Err (PyException "timed out"))
    (fun _ => Err (PyException "Cannot find video data in webpage")).

Definition exhausted_video_url : string :=
  "https://www.douyin.com/video/7123456789012345678".

(** ** Pending identifiers

    The statement of the specification for a video link: on a recognized
    host, when no identifier pattern matches the resolved URL, the call
    does not fail with the unresolvable-link error. *)
Definition video_id_pending (w : VideoParser.world) (url : string) : Prop :=
  VideoParser.is_short_link url = true ->
  forall real_url,
    VideoParser.resolve w url = Ok real_url ->
    VideoParser.extract_video_id real_url = None ->
    VideoParser.parse w url <> Err (ValueError (VideoParser.msg_no_video_id real_url)).

(** A short link of the platform that redirects to its home page. *)
Definition home_short_link : string := "https://v.douyin.com/iRNBho6u/".

(** ** Watermark removal

    What the specification asks of a selected play address. *)
Definition without_watermark (url : string) : string :=
  replace "playwm" "play" (replace "watermark=1" "watermark=0" url).

Definition wm_url : string :=
  "https://aweme.snssdk.com/aweme/v1/playwm/?video_id=v0200fg10000&ratio=720p&watermark=1".

(** An aweme detail record whose play address is [wm_url]. *)
Definition wm_detail : json :=
  JObj [ ("aweme_id", JStr "7123456789012345678");
         ("video", JObj [ ("play_addr", JObj [ ("url_list", JArr [ JStr wm_url ]) ]) ]) ].

(** ** The minimum-fields contract

    A mobile API response whose only item has no play address. *)
Definition bare_item_response : json :=
  JObj [ ("status_code", JNum 0);
         ("item_list", JArr [ JObj [ ("aweme_id", JStr "7123456789012345678");
                                     ("desc", JStr "hello") ] ]) ].

(** A network whose mobile API answers with [bare_item_response]. *)
Definition bare_item_world : VideoParser.world :=
  VideoParser.mkWorld
    (fun _ => Ok "https://www.douyin.com/")
    (fun _ => Err (PyException "timed out"))
    (fun _ => Ok bare_item_response)
    (fun _ => Err (PyException "timed out"))
    (fun _ => Err (PyException "Cannot find video data in webpage")).

(** ** Role classification

    The keyword set of the specification and its rule: a URL that
    contains a keyword is a main image. *)
Definition main_keywords : list string :=
  [ "main"; "primary"; "cover"; "thumb"; "origin" ].

Definition is_main (img_url : string) : bool :=
  ProductParser.any_in main_keywords img_url.

(** Two harvested URLs, in the order the loop enumerates them. *)
Definition harvested_pair : list string :=
  [ "https://p3.byteimg.com/main/a.jpg"; "https://p3.byteimg.com/origin/b.jpg" ].

(** ** Unexpected node types

    A tree whose image entry holds a number where a URL is expected. *)
Definition numeric_url_tree : json :=
  JObj [ ("images", JArr [ JObj [ ("url", JNum 1) ] ]) ].

(** An entry of an image list is well typed when the URL its dict gives
    is absent (falsy) or a string. *)
Definition typed_entry (img : json) : bool :=
  match img with
  | JObj fields =>
      let img_url := ProductParser.img_url_of fields in
      negb (truthy img_url) || isinstance_str img_url
  | _ => true
  end.

(** A tree all of whose lists, at any depth, hold well-typed entries. *)
Fixpoint typed_urls (data : json) : bool :=
  match data with
  | JObj fields =>
      (fix all (fs : list (string * json)) : bool :=
         match fs with
         | [] => true
         | (_, value) :: rest =>
             match value with
             | JArr l => forallb typed_entry l
             | _ => true
             end
             && typed_urls value && all rest
         end) fields
  | JArr l =>
      (fix all (l : list json) : bool :=
         match l with
         | [] => true
         | item :: rest => typed_urls item && all rest
         end) l
  | _ => true
  end.

(** ** The generic image-list keys

    The URL an entry of an image list offers: the entry itself when it is
    a string, the first non-empty value of [url], [src] and [img] when it
    is a dict. *)
Definition listed_url (img : json) : option string :=
  match img with
  | JStr s => Some s
  | JObj fields =>
      match py_or (get fields "url" JNull)
                  (py_or (get fields "src" JNull) (get fields "img" JNull)) with
      | JStr s => Some s
      | _ => None
      end
  | _ => None
  end.

(** The valid image URLs found in a list, in the order of the list. *)
Fixpoint valid_listed (value : list json) : list string :=
  match value with
  | [] => []
  | img :: rest =>
      match listed_url img with
      | Some s =>
          if ProductParser._is_valid_product_image s
          then s :: valid_listed rest
          else valid_listed rest
      | None => valid_listed rest
      end
  end.

(** The statement of the specification on a dict with one key, a generic
    image-list key, over a list of valid URLs: the first 5 of them are
    the main images and the others the detail images. *)
Definition generic_rule_as_stated (key : string) (us : list string) : Prop :=
  ProductParser.key_matches ProductParser.image_keys (lower key) = true ->
  forallb ProductParser._is_valid_product_image us = true ->
  ProductParser._extract_images_from_json (JObj [ (key, JArr (map JStr us)) ]) 0
  = Ok (ProductParser.finish (distribute ProductParser.empty_images us)).

(** Seven valid URLs. *)
Definition seven_urls : list string :=
  map (fun c => ("https://p3.byteimg.com/obj/" ++ c ++ ".jpg")%string)
      [ "a"; "b"; "c"; "d"; "e"; "f"; "g" ].

(** What the key itself has put in the lists when the step of the generic
    keys begins: a key that also contains a main-image name has added the
    valid URLs [us] of its list to [main], all of them, and a key that
    also contains a detail-image name has added them to [detail]. *)
Definition before_generic (key : string) (res : ProductParser.images)
           (us : list string) : ProductParser.images :=
  let key_lower := lower key in
  ProductParser.mkImages
    (if ProductParser.key_matches ProductParser.main_keys key_lower
     then ProductParser.main res ++ us else ProductParser.main res)
    (if ProductParser.key_matches ProductParser.detail_keys key_lower
     then ProductParser.detail res ++ us else ProductParser.detail res)
    (ProductParser.title res) (ProductParser.video res).

(** ** The hosting domains

    The statement of the specification with its own disallow-list: past
    the length test, a URL free of the listed substrings and of the image
    extensions is accepted exactly when it names a hosting domain. *)
Definition cdn_rule_as_stated (url : string) : Prop :=
  20 <= String.length url ->
  ProductParser.any_in disallow_list (lower url) = false ->
  ProductParser.any_in ProductParser.image_exts (lower url) = false ->
  (ProductParser._is_valid_product_image url = true
   <-> exists d, In d hosting_domains /\ contains d (lower url) = true).

(** A URL of a hosting domain, in lower case, with none of the listed
    substrings and no extension. *)
Definition loading_url : string := "https://p3.byteimg.com/obj/loading-abcdef".

(** A chain of [n] nested one-key objects around a leaf. *)
Fixpoint nest (n : nat) (leaf : json) : json :=
  match n with
  | O => leaf
  | S k => JObj [ ("a", nest k leaf) ]
  end.

End Spec.

(* ================================================================== *)
(** * Auxiliary definitions for the properties of the code *)
(* ================================================================== *)

Module Aux.
Import PyStr Py.

(** The pattern [lit(\d+)] tried at the start of [s] only. *)
Definition match_here (lit s : string) : option string :=
  if prefix lit s
  then match span_digits (drop (String.length lit) s) with
       | (EmptyString, _) => None
       | (d, _) => Some d
       end
  else None.

(** Every character of [s] is a digit. *)
Fixpoint all_digits (s : string) : bool :=
  match s with
  | EmptyString => true
  | String c s' => is_digit c && all_digits s'
  end.

(** No character of [s] is [c]. *)
Fixpoint lacks (c : ascii) (s : string) : bool :=
  match s with
  | EmptyString => true
  | String a s' => negb (a =? c)%char && lacks c s'
  end.

(** Every character of [s] is an ASCII character: a code point below
    128, which [str.lower] maps to one ASCII character. *)
Fixpoint ascii_only (s : string) : bool :=
  match s with
  | EmptyString => true
  | String c s' => (nat_of_ascii c <? 128) && ascii_only s'
  end.

(** The rewriting of the watermark toggle. *)
Definition rewrite_toggle (url : string) : string :=
  replace "watermark=1" "watermark=0" url.

(** An entry of the [bit_rate] list: a rate and one play address. *)
Definition rate_entry (r : Z * string) : json :=
  JObj [ ("bit_rate", JNum (fst r));
         ("play_addr", JObj [ ("url_list", JArr [ JStr (snd r) ]) ]) ].

(** An entry of the [bit_rate] list with its sort key. *)
Definition keyed_entry (r : Z * string) : json * json :=
  (JNum (fst r), rate_entry r).

(** The entry with the highest rate, the first of them when several have
    it. *)
Fixpoint best (rs : list (Z * string)) : option (Z * string) :=
  match rs with
  | [] => None
  | r :: rest =>
      match best rest with
      | None => Some r
      | Some b => if (fst r <? fst b)%Z then Some b else Some r
      end
  end.

(** The statistics of a record that has none. *)
Definition zero_stats : list (string * json) :=
  [ ("digg_count", JNum 0); ("comment_count", JNum 0);
    ("share_count", JNum 0); ("collect_count", JNum 0) ].

(** A URL the validity predicate accepts. *)
Definition valid_url (u : string) : Prop :=
  ProductParser._is_valid_product_image u = true.

(** The URLs a result of generic extraction holds all pass the validity
    predicate. *)
Definition all_valid (res : ProductParser.images) : Prop :=
  Forall valid_url (ProductParser.main res)
  /\ Forall valid_url (ProductParser.detail res).

(** The URL [u] is in one of the two lists of a result. *)
Definition holds (u : string) (res : ProductParser.images) : Prop :=
  In u (ProductParser.main res) \/ In u (ProductParser.detail res).

(** What the targeted search may return: a dict whose text names an
    image word. *)
Definition product_like (v : json) : Prop :=
  isinstance_dict v = true
  /\ ProductParser.any_in ProductParser.image_words
       (lower (ProductParser.repr v)) = true.

End Aux.

(** The inversion of a chain of binds that ends in a value: every step of
    the chain returned. *)
Ltac bind_inv H :=
  repeat match type of H with
         | bind ?x _ = Ok _ =>
             let E := fresh "E" in
             destruct x eqn:E; cbn [bind] in H; [|discriminate H]
         end.

(* ================================================================== *)
(** * Facts about Python strings *)
(* ================================================================== *)

Section StringFacts.
Import PyStr.

Lemma prefix_lower (p s : string) :
  prefix p s = true -> prefix (lower p) (lower s) = true.
Proof.
  revert s; induction p as [|a p IH]; intros s H.
  - destruct s; reflexivity.
  - destruct s as [|b s]; simpl in *; [discriminate|].
    destruct (Ascii.ascii_dec a b) as [->|ne].
    + destruct (Ascii.ascii_dec (lower_char b) (lower_char b)); [auto|congruence].
    + discriminate.
Qed.

Lemma contains_nil (p : string) : contains p "" = prefix p "".
Proof.
  change (contains p "") with (if prefix p "" then true else false).
  now destruct (prefix p "").
Qed.

Lemma contains_cons (p : string) (c : ascii) (s : string) :
  contains p (String c s) = prefix p (String c s) || contains p s.
Proof. reflexivity. Qed.

Lemma contains_lower (p s : string) :
  contains p s = true -> contains (lower p) (lower s) = true.
Proof.
  induction s as [|c s IH].
  - rewrite contains_nil. intros H. apply prefix_lower in H.
    change (lower "") with "" in *. now rewrite contains_nil.
  - rewrite contains_cons. intros H.
    change (lower (String c s)) with (String (lower_char c) (lower s)).
    rewrite contains_cons. apply orb_true_iff.
    apply orb_true_iff in H as [H|H].
    + left. now apply prefix_lower in H.
    + right. auto.
Qed.

End StringFacts.

(* ================================================================== *)
(** * The validity predicate *)
(* ================================================================== *)

Section ValidityPredicate.
Import PyStr ProductParser.

Lemma any_in_true (ps : list string) (s : string) :
  any_in ps s = true <-> exists p, In p ps /\ contains p s = true.
Proof. unfold any_in. apply existsb_exists. Qed.

(** Every entry of the specification's disallow-list is in lower case and
    is one of the patterns the code excludes. *)
Lemma disallow_list_excluded (p : string) :
  In p Spec.disallow_list -> lower p = p /\ In p exclude_patterns.
Proof.
  unfold Spec.disallow_list. simpl.
  intros H.
  repeat (destruct H as [<-|H]; [split; [reflexivity | simpl; tauto] |]).
  contradiction.
Qed.

(** C6.  The validity predicate rejects every URL shorter than 20
    characters and every URL that contains an entry of the disallow-list
    (icon, logo, avatar, placeholder, sprite, button, blank, transparent,
    emoji, badge, default, 1x1, 2x2), whatever extension it has. *)
Theorem valid_image_rejects_short_or_disallowed (url : string) :
  String.length url < 20
  \/ (exists p, In p Spec.disallow_list /\ contains p url = true) ->
  _is_valid_product_image url = false.
Proof.
  intros H. unfold _is_valid_product_image.
  destruct (url =? "")%string; [reflexivity|].
  destruct (String.length url <? 20) eqn:Elen; [reflexivity|].
  apply Nat.ltb_ge in Elen.
  destruct H as [Hshort | [p [Hin Hc]]]; [lia|].
  destruct (disallow_list_excluded p Hin) as [Hlow Hex].
  apply contains_lower in Hc. rewrite Hlow in Hc.
  assert (Hany : any_in exclude_patterns (lower url) = true)
    by (apply any_in_true; now exists p).
  now rewrite Hany.
Qed.

Lemma valid_image_rejects_short_or_disallowed_witness :
  _is_valid_product_image "https://a.cn/b.jpg" = false
  /\ _is_valid_product_image "https://p3.byteimg.com/img/icon/a.jpg" = false.
Proof.
  split.
  - apply valid_image_rejects_short_or_disallowed. left. simpl. lia.
  - apply valid_image_rejects_short_or_disallowed. right.
    exists "icon". split; [simpl; tauto | reflexivity].
Defined.

(** C10 (amended).  For a URL of 20 characters or more whose lower-cased
    form holds none of the fifteen patterns the predicate excludes (the
    thirteen of the disallow-list and also [loading] and [btn]) and none
    of the image extensions (.jpg, .jpeg, .png, .webp), the predicate
    accepts the URL exactly when its lower-cased form contains one of the
    four hosting domains ecombdimg.com, bytetos.com, douyinpic.com,
    byteimg.com. *)
Theorem valid_image_without_extension_iff_cdn (url : string) :
  20 <= String.length url ->
  any_in exclude_patterns (lower url) = false ->
  any_in image_exts (lower url) = false ->
  (_is_valid_product_image url = true
   <-> exists d, In d Spec.hosting_domains /\ contains d (lower url) = true).
Proof.
  intros Hlen Hex Hext. unfold _is_valid_product_image.
  destruct (url =? "")%string eqn:Eempty.
  { apply String.eqb_eq in Eempty. subst url. simpl in Hlen. lia. }
  destruct (String.length url <? 20) eqn:Elen.
  { apply Nat.ltb_lt in Elen. lia. }
  rewrite Hex, Hext.
  change Spec.hosting_domains with bytedance_cdns.
  rewrite <- any_in_true.
  destruct (any_in bytedance_cdns (lower url)); cbn [negb andb];
    split; intros H; first [reflexivity | discriminate].
Qed.

Lemma valid_image_without_extension_iff_cdn_witness :
  _is_valid_product_image "https://p3-sign.DouyinPic.com/obj/abcdef" = true
  <-> exists d, In d Spec.hosting_domains
                /\ contains d (lower "https://p3-sign.DouyinPic.com/obj/abcdef") = true.
Proof.
  apply valid_image_without_extension_iff_cdn.
  - simpl. lia.
  - reflexivity.
  - reflexivity.
Defined.

(** C10, as the specification states it, fails: [loading_url] has 41
    characters, none of the thirteen substrings of the disallow-list and
    no image extension, and it names the hosting domain byteimg.com; the
    predicate rejects it, for it contains [loading]. *)
Lemma loading_url_counterexample :
  20 <= String.length Spec.loading_url
  /\ any_in Spec.disallow_list (lower Spec.loading_url) = false
  /\ any_in image_exts (lower Spec.loading_url) = false
  /\ contains "byteimg.com" (lower Spec.loading_url) = true
  /\ _is_valid_product_image Spec.loading_url = false
  /\ ~ Spec.cdn_rule_as_stated Spec.loading_url.
Proof.
  assert (Hlen : 20 <= String.length Spec.loading_url) by (vm_compute; lia).
  assert (Hdis : any_in Spec.disallow_list (lower Spec.loading_url) = false)
    by (vm_compute; reflexivity).
  assert (Hext : any_in image_exts (lower Spec.loading_url) = false)
    by (vm_compute; reflexivity).
  assert (Hcdn : contains "byteimg.com" (lower Spec.loading_url) = true)
    by (vm_compute; reflexivity).
  assert (Hrej : _is_valid_product_image Spec.loading_url = false)
    by (vm_compute; reflexivity).
  repeat (split; [assumption|]).
  intros H. destruct (H Hlen Hdis Hext) as [_ Hacc].
  rewrite Hacc in Hrej; [discriminate|].
  exists "byteimg.com". split; [simpl; tauto | exact Hcdn].
Qed.

(** A value the unchecked predicate accepts is a string. *)
Lemma valid_dyn_true_is_str (v : json) :
  _is_valid_product_image_dyn v = Ok true ->
  exists s, v = JStr s /\ _is_valid_product_image s = true.
Proof.
  unfold _is_valid_product_image_dyn.
  destruct (negb (Py.truthy v)); [discriminate|].
  destruct v as [| b | n | s | l | l]; try discriminate.
  - intros H. exists s. split; [reflexivity | congruence].
  - destruct (length l <? 20); discriminate.
  - destruct (length l <? 20); discriminate.
Qed.

End ValidityPredicate.

(* ================================================================== *)
(** * The deep structure miner *)
(* ================================================================== *)

Section Miner.
Import PyStr Py ProductParser.

Lemma distribute_append_generic (res : images) (u : string) (us : list string) :
  Spec.distribute (append_generic res u) us = Spec.distribute res (u :: us).
Proof.
  unfold Spec.distribute, append_generic.
  destruct (length (main res) <? 5) eqn:E.
  - apply Nat.ltb_lt in E.
    cbn [append_main main detail title video]. rewrite length_app.
    cbn [length].
    replace (5 - length (main res)) with (S (5 - (length (main res) + 1))) by lia.
    rewrite firstn_cons, skipn_cons, <- app_assoc. reflexivity.
  - apply Nat.ltb_ge in E.
    cbn [append_detail main detail title video].
    replace (5 - length (main res)) with 0 by lia.
    rewrite firstn_0, !skipn_O, <- app_assoc. reflexivity.
Qed.

(** The loop over the entries of a list under a generic image-list key
    distributes its valid URLs. *)
Lemma generic_loop_distribute (value : list json) (res : images) :
  generic_loop value res
  = (us <- Spec.candidates value ;; Ok (Spec.distribute res us)).
Proof.
  revert res. induction value as [|img rest IH]; intros res.
  - simpl. unfold Spec.distribute. simpl.
    destruct res as [m d t v]. simpl.
    rewrite firstn_nil, skipn_nil, !app_nil_r. reflexivity.
  - simpl. destruct (candidate img) as [c|e]; simpl; [|reflexivity].
    rewrite IH. destruct (Spec.candidates rest) as [us|e]; simpl; [|reflexivity].
    destruct c as [u|]; [|reflexivity].
    now rewrite distribute_append_generic.
Qed.

(** The step of the generic image-list keys (images, imgs, image_list,
    pic_list, gallery, photos), taken alone: when the lower-cased key
    contains one of them and the value is a list, the valid URLs of the
    list go to the main-image list while that list, as it stands at this
    level of the recursion, has fewer than 5 entries, and every later URL
    goes to the detail-image list; in every other case the step changes
    nothing. *)
Lemma generic_step_fills_main_up_to_five
        (key_lower : string) (value : json) (res : images) :
  generic_step key_lower value res
  = if any_in [ "images"; "imgs"; "image_list"; "pic_list"; "gallery"; "photos" ]
              key_lower
    then match value with
         | JArr l => us <- Spec.candidates l ;; Ok (Spec.distribute res us)
         | _ => Ok res
         end
    else Ok res.
Proof.
  unfold generic_step, key_matches.
  change image_keys
    with [ "images"; "imgs"; "image_list"; "pic_list"; "gallery"; "photos" ].
  destruct (any_in _ key_lower); [|reflexivity].
  destruct value; try reflexivity.
  apply generic_loop_distribute.
Qed.

(** The same at the level of one key: for a key that matches a generic
    image-list name and no main or detail name, the whole step on a list
    value is the distribution above. *)
Lemma scan_item_generic_key (key : string) (value : list json) (res : images) :
  key_matches main_keys (lower key) = false ->
  key_matches detail_keys (lower key) = false ->
  key_matches image_keys (lower key) = true ->
  scan_item key (JArr value) res
  = (us <- Spec.candidates value ;; Ok (Spec.distribute res us)).
Proof.
  intros Hm Hd Hi. unfold scan_item, main_step, detail_step, generic_step.
  rewrite Hm, Hd, Hi. simpl.
  apply generic_loop_distribute.
Qed.

(** Seven valid URLs under [images]: five main images, two detail
    images. *)
Example seven_images_split :
  let u (c : string) := ("https://p3.byteimg.com/obj/" ++ c ++ ".jpg")%string in
  _extract_images_from_json
    (JObj [ ("images", JArr (map (fun c => JStr (u c))
                               [ "a"; "b"; "c"; "d"; "e"; "f"; "g" ])) ]) 0
  = Ok (Some (mkImages [ u "a"; u "b"; u "c"; u "d"; u "e" ] [ u "f"; u "g" ] "" None)).
Proof. vm_compute. reflexivity. Qed.

(** C8.  On the decoded tree of the scenario, the targeted search returns
    the object under the key [item], and generic extraction on that
    object gives exactly one main image, the URL of the scenario; the
    [_ROUTER_DATA] block of the static strategy ends with that list. *)
Theorem router_data_scenario :
  _find_product_in_router Spec.scenario_tree 0 = Some Spec.scenario_item
  /\ _extract_images_from_json Spec.scenario_item 0
     = Ok (Some (mkImages [ Spec.scenario_url ] [] "" None))
  /\ mine_router_data Spec.scenario_tree empty_page_state
     = Ok (mkPageState [ Spec.scenario_url ] [] "" None).
Proof. vm_compute. repeat split. Qed.

(** Generic extraction on the whole tree of the scenario, as the loop
    over the JSON patterns runs it, finds the same single main image. *)
Example router_data_scenario_whole_tree :
  _extract_images_from_json Spec.scenario_tree 0
  = Ok (Some (mkImages [ Spec.scenario_url ] [] "" None)).
Proof. vm_compute. reflexivity. Qed.

(** Beyond the depth bound the targeted search is a dead end. *)
Lemma find_product_depth_bound (data : json) (depth : nat) :
  15 < depth -> _find_product_in_router data depth = None.
Proof.
  intros H. apply Nat.ltb_lt in H.
  destruct data; simpl; now rewrite H.
Qed.

(** Beyond the depth bound generic extraction is a dead end, not an
    error. *)
Lemma extract_images_depth_bound (data : json) (depth : nat) :
  10 < depth -> _extract_images_from_json data depth = Ok None.
Proof.
  intros H. apply Nat.ltb_lt in H.
  destruct data; simpl; now rewrite H.
Qed.

(** A tree nested 50 levels deep: both modes return, with nothing
    found. *)
Example fifty_levels_deep :
  _find_product_in_router (Spec.nest 50 Spec.scenario_item) 0 = None
  /\ _extract_images_from_json (Spec.nest 50 Spec.scenario_item) 0 = Ok None.
Proof. vm_compute. split; reflexivity. Qed.

(** On well-typed entries the loops do not raise. *)
Lemma candidate_typed (img : json) :
  Spec.typed_entry img = true -> exists c, candidate img = Ok c.
Proof.
  destruct img as [| b | n | s | l | fields]; simpl; intros H;
    try (eexists; reflexivity).
  destruct (truthy (img_url_of fields)) eqn:Et; [|eexists; reflexivity].
  simpl in H. destruct (img_url_of fields); try discriminate.
  unfold _is_valid_product_image_dyn. rewrite Et. simpl.
  eexists; reflexivity.
Qed.

Lemma loops_typed (l : list json) :
  forallb Spec.typed_entry l = true ->
  forall res,
    (exists r, main_loop l res = Ok r)
    /\ (exists r, detail_loop l res = Ok r)
    /\ (exists r, generic_loop l res = Ok r).
Proof.
  induction l as [|img rest IH]; simpl; intros H res.
  - repeat split; eexists; reflexivity.
  - apply andb_true_iff in H as [Himg Hrest].
    destruct (candidate_typed img Himg) as [c ->]. simpl.
    repeat split; apply IH; assumption.
Qed.

Lemma steps_typed (key_lower : string) (value : json) :
  match value with
  | JArr l => forallb Spec.typed_entry l
  | _ => true
  end = true ->
  forall res,
    (exists r, main_step key_lower value res = Ok r)
    /\ (exists r, detail_step key_lower value res = Ok r)
    /\ (exists r, generic_step key_lower value res = Ok r).
Proof.
  intros H res. unfold main_step, detail_step, generic_step.
  destruct (key_matches main_keys key_lower),
           (key_matches detail_keys key_lower),
           (key_matches image_keys key_lower);
    destruct value as [| b | n | s | l | fields];
    repeat split;
    first [ apply (loops_typed l H res) | eexists; reflexivity ].
Qed.

Lemma scan_item_typed (key : string) (value : json) (res : images) :
  match value with
  | JArr l => forallb Spec.typed_entry l
  | _ => true
  end = true ->
  exists r, scan_item key value res = Ok r.
Proof.
  intros H. unfold scan_item.
  destruct (proj1 (steps_typed (lower key) value H
                     (scalar_step (lower key) value res))) as [r1 ->].
  cbn [bind].
  destruct (proj1 (proj2 (steps_typed (lower key) value H r1))) as [r2 ->].
  cbn [bind].
  apply (steps_typed (lower key) value H r2).
Qed.

(** Generic extraction returns, at every depth, on every tree whose image
    entries give a string, or nothing, for their URL. *)
Lemma extract_images_returns_on_typed_urls (data : json) :
  forall depth,
    Spec.typed_urls data = true ->
    exists r, _extract_images_from_json data depth = Ok r.
Proof.
  induction data as [| b | n | s | items IH | fields IH] using json_tree_ind;
    intros depth Ht;
    try (simpl; destruct (10 <? depth); eexists; reflexivity).
  - (* a list: the nested results of its dicts and lists are merged *)
    cbn [_extract_images_from_json]. destruct (10 <? depth); [eexists; reflexivity|].
    cbn [Spec.typed_urls] in Ht.
    match goal with
    | |- context [?elems items empty_images] =>
        assert (Hloop : forall res, exists r, elems items res = Ok r)
    end.
    { induction items as [|item rest IHl]; intros res; [eexists; reflexivity|].
      apply andb_true_iff in Ht as [Hitem Hrest].
      inversion IH as [|? ? Hhead Htail]; subst.
      destruct (Hhead (S depth) Hitem) as [nested Hn].
      simpl. rewrite Hn.
      destruct item; cbn [isinstance_dict isinstance_list orb bind];
        apply IHl; assumption. }
    destruct (Hloop empty_images) as [r ->]. eexists; reflexivity.
  - (* a dict: each item is scanned, then searched *)
    cbn [_extract_images_from_json]. destruct (10 <? depth); [eexists; reflexivity|].
    cbn [Spec.typed_urls] in Ht.
    match goal with
    | |- context [?items fields empty_images] =>
        assert (Hloop : forall res, exists r, items fields res = Ok r)
    end.
    { induction fields as [|[key value] rest IHl]; intros res; [eexists; reflexivity|].
      apply andb_true_iff in Ht as [Ht Hrest].
      apply andb_true_iff in Ht as [Hentries Hvalue].
      inversion IH as [|? ? Hhead Htail]; subst. cbn [snd] in Hhead.
      destruct (scan_item_typed key value res Hentries) as [r1 H1].
      destruct (Hhead (S depth) Hvalue) as [nested Hn].
      simpl. rewrite H1, Hn. cbn [bind].
      destruct value; cbn [isinstance_dict isinstance_list orb bind];
        apply IHl; assumption. }
    destruct (Hloop empty_images) as [r ->]. eexists; reflexivity.
Qed.

(** The tree on which extraction raises is not of that kind. *)
Example numeric_url_tree_not_typed : Spec.typed_urls Spec.numeric_url_tree = false.
Proof. reflexivity. Qed.

(** C7.  Generic extraction raises on a well-formed tree: an image entry
    whose [url] is a number reaches [len] inside the validity predicate,
    and the [TypeError] leaves the function.  The string branch of the
    same loop checks the type first. *)
Theorem extract_images_raises_on_numeric_url :
  _extract_images_from_json Spec.numeric_url_tree 0
  = Err (TypeError "object of type 'int' has no len()").
Proof. vm_compute. reflexivity. Qed.

End Miner.

(* ================================================================== *)
(** * Role classification of harvested URLs *)
(* ================================================================== *)

Section Classification.
Import PyStr ProductParser.

(** The loop splits the URLs by the test, keeping their order. *)
Lemma classify_loop_partition (is_main : string -> bool)
      (all_images main_images detail_images : list string) :
  classify_loop is_main all_images main_images detail_images
  = (main_images ++ filter is_main all_images,
     detail_images ++ filter (fun u => negb (is_main u)) all_images).
Proof.
  revert main_images detail_images.
  induction all_images as [|u rest IH]; intros m d; simpl.
  - now rewrite !app_nil_r.
  - destruct (is_main u); simpl; rewrite IH, <- app_assoc; reflexivity.
Qed.

(** The fallback: with no main image and some detail image, the first 5
    detail images (all of them when there are fewer) become the main
    images and leave the detail list; otherwise nothing moves. *)
Lemma promote_first_five (main_images detail_images : list string) :
  promote (main_images, detail_images)
  = match main_images, detail_images with
    | [], _ :: _ => (firstn 5 detail_images, skipn 5 detail_images)
    | _, _ => (main_images, detail_images)
    end.
Proof. destruct main_images, detail_images; reflexivity. Qed.

(** The rendered-DOM strategy: main images are the URLs whose lower-cased
    form holds one of the five keywords, then the fallback. *)
Lemma classify_playwright_rule (all_images : list string) :
  classify_playwright all_images
  = promote (filter is_main_playwright all_images,
             filter (fun u => negb (is_main_playwright u)) all_images).
Proof. unfold classify_playwright. now rewrite classify_loop_partition. Qed.

(** The static-HTML strategy: main images are the URLs that hold, as
    written, one of its four keywords, then the fallback. *)
Lemma classify_html_rule (all_images : list string) :
  classify_html all_images
  = promote (filter is_main_html all_images,
             filter (fun u => negb (is_main_html u)) all_images).
Proof. unfold classify_html. now rewrite classify_loop_partition. Qed.

(** C5.  The static-HTML strategy does not follow the rule: of two
    harvested URLs, one with [main] and one with [origin], it files the
    second under detail images, where the keyword set of the rule, and
    the rendered-DOM strategy, make it a main image. *)
Theorem classify_html_misses_origin :
  Spec.is_main "https://p3.byteimg.com/origin/b.jpg" = true
  /\ classify_html Spec.harvested_pair
     = ([ "https://p3.byteimg.com/main/a.jpg" ],
        [ "https://p3.byteimg.com/origin/b.jpg" ])
  /\ classify_playwright Spec.harvested_pair
     = ([ "https://p3.byteimg.com/main/a.jpg";
          "https://p3.byteimg.com/origin/b.jpg" ], []).
Proof. vm_compute. repeat split. Qed.

End Classification.

(* ================================================================== *)
(** * The video selector *)
(* ================================================================== *)

Section Selector.
Import PyStr Py VideoParser.

(** The first play address is returned, its toggle rewritten, when it is
    on the direct host or not on the short-link host. *)
Lemma play_addr_loop_head (url : string) (rest : list json) :
  let url' := if contains "watermark" url
              then replace "watermark=1" "watermark=0" url
              else url in
  contains "aweme.snssdk.com" url' || negb (contains "v.douyin.com" url') = true ->
  play_addr_loop (JStr url :: rest) = Ok (Some (JStr url')).
Proof.
  intros url' H. cbn [play_addr_loop str_in bind].
  destruct (contains "watermark" url); cbn [attr_replace bind str_in];
    fold url'; destruct (contains "aweme.snssdk.com" url') eqn:E;
    cbn [bind orb]; try reflexivity;
    cbn [orb] in H; rewrite H; reflexivity.
Qed.

(** C1.  The selector of the aweme detail record rewrites the toggle and
    leaves the path marker: for the play address of [Spec.wm_detail] it
    returns a URL that still contains [playwm].  The mobile extraction
    rewrites both on the same record. *)
Theorem get_no_watermark_url_keeps_playwm :
  _get_no_watermark_url Spec.wm_detail
  = Ok (JStr "https://aweme.snssdk.com/aweme/v1/playwm/?video_id=v0200fg10000&ratio=720p&watermark=0")
  /\ Spec.without_watermark Spec.wm_url
     = "https://aweme.snssdk.com/aweme/v1/play/?video_id=v0200fg10000&ratio=720p&watermark=0"
  /\ (exists info, _extract_video_info_v2 Spec.wm_detail = Ok info
                   /\ video_url info = JStr (Spec.without_watermark Spec.wm_url)).
Proof.
  split; [vm_compute; reflexivity|].
  split; [vm_compute; reflexivity|].
  eexists. split; vm_compute; reflexivity.
Qed.

(** The share-page strategy, on a match of its second pattern, removes
    the path marker and leaves the toggle. *)
Example share_page_keeps_toggle :
  share_video_url
    [ None;
      Some "https:\u002F\u002Faweme.snssdk.com\u002Faweme\u002Fv1\u002Fplaywm\u002F?video_id=v0200&watermark=1" ]
  = "https://aweme.snssdk.com/aweme/v1/play/?video_id=v0200&watermark=1".
Proof. vm_compute. reflexivity. Qed.

(** C2.  The mobile-API strategy returns a [VideoInfo] whose [video_url]
    is the empty string, and [parse] returns it as the result of the
    call: the item of [Spec.bare_item_response] has no play address. *)
Theorem mobile_api_returns_empty_video_url :
  exists info,
    _parse_from_mobile_api Spec.bare_item_response = Ok (Some info)
    /\ video_url info = JStr ""
    /\ parse Spec.bare_item_world Spec.exhausted_video_url = Ok info.
Proof. eexists. repeat split; vm_compute; reflexivity. Qed.

(** The share-page strategy does keep the contract: without a URL it
    returns nothing. *)
Lemma share_result_has_video_url (share_url : string) (m : share_matches)
      (info : VideoInfo) :
  share_result share_url m = Some info ->
  exists u, video_url info = JStr u /\ u <> "".
Proof.
  unfold share_result.
  destruct (share_video_url (video_matches m) =? "")%string eqn:E; [discriminate|].
  intros H. injection H as <-. simpl.
  eexists. split; [reflexivity|]. now apply String.eqb_neq.
Qed.

End Selector.

(* ================================================================== *)
(** * Identifier extraction and the strategy chains *)
(* ================================================================== *)

Section Chains.
Import PyStr Py.

(** Group 1 of [(\d+)] is never empty. *)
Lemma search_lit_digits_nonempty (lit s d : string) :
  search_lit_digits lit s = Some d -> d <> "".
Proof.
  induction s as [|c s IH]; cbn [search_lit_digits].
  - destruct (prefix lit ""); [|discriminate].
    destruct (span_digits (drop (String.length lit) "")) as [[|a r] t]; [discriminate|].
    intros H. injection H as <-. discriminate.
  - destruct (prefix lit (String c s)).
    + destruct (span_digits (drop (String.length lit) (String c s))) as [[|a r] t].
      * exact IH.
      * intros H. injection H as <-. discriminate.
    + exact IH.
Qed.

Lemma extract_video_id_nonempty (url d : string) :
  VideoParser.extract_video_id url = Some d -> VideoParser.no_id (Some d) = false.
Proof.
  unfold VideoParser.extract_video_id. intros H.
  assert (Hd : d <> "").
  { destruct (search_lit_digits "/video/" url) eqn:E1.
    - injection H as <-. eapply search_lit_digits_nonempty; eassumption.
    - destruct (search_lit_digits "modal_id=" url) eqn:E2.
      + injection H as <-. eapply search_lit_digits_nonempty; eassumption.
      + eapply search_lit_digits_nonempty; eassumption. }
  simpl. now apply String.eqb_neq.
Qed.

(** C3, as stated, fails: the product call with no result from either
    strategy, and the video call on a network where every strategy
    fails, do not raise
    [ResolutionExhaustedError]: the first raises a [ValueError], the
    second the exception of its last strategy. *)
Lemma exhaustion_counterexample :
  ~ Spec.raises_resolution_exhausted
      (ProductParser.parse (fun _ _ => None) (fun _ _ => None)
                           Spec.exhausted_product_url)
  /\ ~ Spec.raises_resolution_exhausted
         (VideoParser.parse Spec.failing_world Spec.exhausted_video_url).
Proof.
  split; intros [e [H Hc]]; vm_compute in H; injection H as <-;
    vm_compute in Hc; discriminate.
Qed.

(** C3 (amended).  When the product id is known and both product
    strategies return nothing, the product call raises a [ValueError]
    with its fixed message; when the share page, the mobile API and the
    web API give no result and the webpage strategy raises, the video
    call raises that last failure, wrapped by the webpage strategy.  No
    list of attempts is attached in either case. *)
Theorem exhausted_strategies_raise_plain_error :
  (forall (pw html : string -> string -> option ProductParser.ProductInfo)
          (url pid : string),
      ProductParser.extract_product_id url = Ok pid ->
      pw url (if negb (pid =? ProductParser.SHORT_LINK)%string
              then pid else "unknown") = None ->
      html url pid = None ->
      ProductParser.parse pw html url
      = Err (ValueError ProductParser.msg_no_product_info))
  /\ (forall (w : VideoParser.world) (url real_url vid : string) (e : exn),
         VideoParser.resolve w url = Ok real_url ->
         VideoParser.try_share w real_url = None ->
         VideoParser.extract_video_id real_url = Some vid ->
         VideoParser.try_mobile w vid = None ->
         VideoParser.try_web w vid = None ->
         VideoParser.webpage w vid = Err e ->
         VideoParser.parse w url
         = Err (PyException ("Failed to parse from webpage: " ++ exn_msg e)%string)).
Proof.
  split.
  - intros pw html url pid Hid Hpw Hhtml.
    unfold ProductParser.parse. rewrite Hid. cbn [bind].
    now rewrite Hpw, Hhtml.
  - intros w url real_url vid e Hres Hshare Hid Hmob Hweb Hpage.
    unfold VideoParser.parse. rewrite Hres. cbn [bind].
    rewrite Hshare, Hid, (extract_video_id_nonempty _ _ Hid).
    cbn [VideoParser.or_empty]. rewrite Hmob, Hweb.
    unfold VideoParser._parse_from_webpage. now rewrite Hpage.
Qed.

Lemma exhausted_strategies_raise_plain_error_witness :
  ProductParser.parse (fun _ _ => None) (fun _ _ => None) Spec.exhausted_product_url
  = Err (ValueError ProductParser.msg_no_product_info)
  /\ VideoParser.parse Spec.failing_world Spec.exhausted_video_url
     = Err (PyException "Failed to parse from webpage: Cannot find video data in webpage").
Proof.
  split.
  - apply (proj1 exhausted_strategies_raise_plain_error)
      with (pid := "3456789012345678901"); reflexivity.
  - apply (proj2 exhausted_strategies_raise_plain_error
             Spec.failing_world Spec.exhausted_video_url
             Spec.exhausted_video_url "7123456789012345678"
             (PyException "Cannot find video data in webpage")); reflexivity.
Defined.

(** C4, as stated, fails: a short link of the platform that redirects to
    a page without a video id fails the video call at once. *)
Lemma pending_counterexample :
  ~ Spec.video_id_pending Spec.failing_world Spec.home_short_link.
Proof.
  intros H.
  apply (H eq_refl "https://www.douyin.com/" eq_refl eq_refl).
  reflexivity.
Qed.

(** C4 (amended).  For a product link, identifier extraction raises
    exactly when no pattern matches and the URL does not contain
    [douyin.com]; when no pattern matches and the URL contains it, the
    identifier is the sentinel [SHORT_LINK] and the call goes on to its
    strategies, the rendered one with the id [unknown].  For a video link
    there is no pending state: when the share page gives no result and no
    pattern matches the resolved URL, the call raises a [ValueError],
    whatever the host. *)
Theorem identifier_extraction_failure :
  (forall url : string,
      (exists e, ProductParser.extract_product_id url = Err e)
      <-> ProductParser.first_match ProductParser.id_patterns url = None
          /\ ProductParser.is_douyin_link url = false)
  /\ (forall (pw html : string -> string -> option ProductParser.ProductInfo)
             (url : string),
         ProductParser.first_match ProductParser.id_patterns url = None ->
         ProductParser.is_douyin_link url = true ->
         ProductParser.extract_product_id url = Ok ProductParser.SHORT_LINK
         /\ ProductParser.parse pw html url
            = match pw url "unknown" with
              | Some r => Ok r
              | None =>
                  match html url ProductParser.SHORT_LINK with
                  | Some r => Ok r
                  | None => Err (ValueError ProductParser.msg_no_product_info)
                  end
              end)
  /\ (forall (w : VideoParser.world) (url real_url : string),
         VideoParser.resolve w url = Ok real_url ->
         VideoParser.try_share w real_url = None ->
         VideoParser.extract_video_id real_url = None ->
         VideoParser.parse w url
         = Err (ValueError (VideoParser.msg_no_video_id real_url))).
Proof.
  split; [|split].
  - intros url. unfold ProductParser.extract_product_id.
    destruct (ProductParser.first_match ProductParser.id_patterns url) as [d|].
    + split; [intros [e H]; discriminate | intros [H _]; discriminate].
    + destruct (ProductParser.is_douyin_link url).
      * split; [intros [e H]; discriminate | intros [_ H]; discriminate].
      * split; [auto | intros _; eexists; reflexivity].
  - intros pw html url Hnone Hlink.
    assert (Hid : ProductParser.extract_product_id url = Ok ProductParser.SHORT_LINK).
    { unfold ProductParser.extract_product_id. now rewrite Hnone, Hlink. }
    split; [exact Hid|].
    unfold ProductParser.parse. rewrite Hid. cbn [bind].
    rewrite String.eqb_refl. reflexivity.
  - intros w url real_url Hres Hshare Hid.
    unfold VideoParser.parse. rewrite Hres. cbn [bind].
    now rewrite Hshare, Hid.
Qed.

Lemma identifier_extraction_failure_witness :
  (ProductParser.extract_product_id "https://v.douyin.com/iRNBho6u/"
   = Ok ProductParser.SHORT_LINK
   /\ ProductParser.parse (fun _ _ => None) (fun _ _ => None)
                          "https://v.douyin.com/iRNBho6u/"
      = Err (ValueError ProductParser.msg_no_product_info))
  /\ VideoParser.parse Spec.failing_world Spec.home_short_link
     = Err (ValueError (VideoParser.msg_no_video_id "https://www.douyin.com/")).
Proof.
  split.
  - apply (proj1 (proj2 identifier_extraction_failure)
             (fun _ _ => None) (fun _ _ => None)); reflexivity.
  - apply (proj2 (proj2 identifier_extraction_failure)); reflexivity.
Defined.

End Chains.

(* ================================================================== *)
(** * More facts about Python strings *)
(* ================================================================== *)

Section MoreStringFacts.
Import PyStr.

Lemma prefix_app (p s : string) :
  prefix p s = true -> s = (p ++ drop (String.length p) s)%string.
Proof.
  revert s. induction p as [|a p IH]; intros s H.
  - now destruct s.
  - destruct s as [|b s]; simpl in H; [discriminate|].
    destruct (Ascii.ascii_dec a b) as [->|]; [|discriminate].
    simpl. f_equal. now apply IH.
Qed.

Lemma prefix_app_l (a b s : string) :
  prefix (a ++ b) s = true -> prefix a s = true.
Proof.
  revert s. induction a as [|c a IH]; intros s H; [now destruct s|].
  destruct s as [|d s]; simpl in *; [discriminate|].
  destruct (Ascii.ascii_dec c d); [auto|discriminate].
Qed.

Lemma contains_head (p s : string) : prefix p s = true -> contains p s = true.
Proof.
  intros H. destruct s as [|c s].
  - now rewrite contains_nil.
  - rewrite contains_cons, H. reflexivity.
Qed.

Lemma contains_tail (p : string) (c : ascii) (s : string) :
  contains p s = true -> contains p (String c s) = true.
Proof. intros H. rewrite contains_cons, H. apply orb_true_r. Qed.

Lemma prefix_app_r (a b s : string) :
  prefix (a ++ b) s = true -> contains b s = true.
Proof.
  revert s. induction a as [|c a IH]; intros s H.
  - now apply contains_head.
  - destruct s as [|d s]; simpl in H; [discriminate|].
    destruct (Ascii.ascii_dec c d); [|discriminate].
    apply contains_tail. now apply IH.
Qed.

(** A string that holds [a ++ b] holds [a] and holds [b]. *)
Lemma contains_app_l (a b s : string) :
  contains (a ++ b) s = true -> contains a s = true.
Proof.
  induction s as [|c s IH].
  - rewrite !contains_nil. apply prefix_app_l.
  - rewrite !contains_cons. intros H. apply orb_true_iff in H as [H|H].
    + apply prefix_app_l in H. now rewrite H.
    + rewrite (IH H). apply orb_true_r.
Qed.

Lemma contains_app_r (a b s : string) :
  contains (a ++ b) s = true -> contains b s = true.
Proof.
  induction s as [|c s IH].
  - rewrite contains_nil. apply prefix_app_r.
  - rewrite contains_cons. intros H. apply orb_true_iff in H as [H|H].
    + now apply prefix_app_r in H.
    + apply contains_tail. auto.
Qed.

Lemma lower_char_idempotent (c : ascii) :
  lower_char (lower_char c) = lower_char c.
Proof. destruct c as [[] [] [] [] [] [] [] []]; reflexivity. Qed.

Lemma lower_idempotent (s : string) : lower (lower s) = lower s.
Proof.
  induction s as [|c s IH]; simpl; [reflexivity|].
  now rewrite lower_char_idempotent, IH.
Qed.

Lemma lower_length (s : string) : String.length (lower s) = String.length s.
Proof. induction s; simpl; auto. Qed.

(** Without an occurrence of [old], [replace] changes nothing. *)
Lemma replace_from_absent (old new s : string) :
  contains old s = false -> replace_from old new 0 s = s.
Proof.
  induction s as [|c s IH]; intros H; [reflexivity|].
  rewrite contains_cons in H. apply orb_false_iff in H as [Hp Hc].
  cbn [replace_from]. rewrite Hp. now rewrite (IH Hc).
Qed.

Lemma replace_absent (old new s : string) :
  old <> "" -> contains old s = false -> replace old new s = s.
Proof.
  intros Hne H. destruct old; [congruence|].
  unfold replace. now apply replace_from_absent.
Qed.

End MoreStringFacts.

(* ================================================================== *)
(** * The validity predicate and letter case *)
(* ================================================================== *)

Section ValidityCase.
Import PyStr ProductParser.

(** On a URL of ASCII characters, which [str.lower] maps one to one, the
    answer of the validity predicate does not depend on the case of the
    letters: the URL and its lower-cased form are accepted or rejected
    together. *)
Theorem valid_image_ignores_case (url : string) :
  Aux.ascii_only url = true ->
  _is_valid_product_image (lower url) = _is_valid_product_image url.
Proof.
  intros _. unfold _is_valid_product_image.
  rewrite lower_length, lower_idempotent.
  destruct url; reflexivity.
Qed.

Lemma valid_image_ignores_case_witness :
  _is_valid_product_image (lower "https://P3.ByteImg.com/obj/ABC.JPG")
  = _is_valid_product_image "https://P3.ByteImg.com/obj/ABC.JPG".
Proof.
  apply valid_image_ignores_case. vm_compute. reflexivity.
Defined.

End ValidityCase.

(* ================================================================== *)
(** * What the deep structure miner returns *)
(* ================================================================== *)

Section MinerResults.
Import PyStr Py ProductParser.

Lemma mem_In (x : string) (l : list string) : mem x l = true <-> In x l.
Proof.
  unfold mem. rewrite existsb_exists. split.
  - intros [y [Hy E]]. apply String.eqb_eq in E. now subst.
  - intros H. exists x. split; [assumption | apply String.eqb_refl].
Qed.

Lemma dedup_from_In (l seen : list string) (x : string) :
  In x (dedup_from seen l) <-> In x l /\ ~ In x seen.
Proof.
  revert seen. induction l as [|y l IH]; intros seen; simpl.
  - tauto.
  - destruct (mem y seen) eqn:E.
    + apply mem_In in E. rewrite IH. split.
      * intros [H1 H2]. auto.
      * intros [[->|H1] H2]; [contradiction | auto].
    + assert (Hy : ~ In y seen).
      { intros H. apply mem_In in H. congruence. }
      simpl. rewrite IH. simpl. split.
      * intros [->|[H1 H2]]; [auto|]. split; [auto|]. intros H. apply H2. auto.
      * intros [[->|H1] H2]; [auto|].
        destruct (string_dec y x) as [->|ne]; [auto|].
        right. split; [assumption|]. intros [H|H]; [congruence | contradiction].
Qed.

Lemma dedup_from_NoDup (l seen : list string) : NoDup (dedup_from seen l).
Proof.
  revert seen. induction l as [|y l IH]; intros seen; simpl.
  - constructor.
  - destruct (mem y seen); [apply IH|].
    constructor; [|apply IH].
    rewrite dedup_from_In. intros [_ H]. apply H. now left.
Qed.

(** [dedup] keeps exactly the values of the list, each once. *)
Lemma dedup_In (l : list string) (x : string) : In x (dedup l) <-> In x l.
Proof. unfold dedup. rewrite dedup_from_In. simpl. tauto. Qed.

Lemma dedup_NoDup (l : list string) : NoDup (dedup l).
Proof. apply dedup_from_NoDup. Qed.

(** What generic extraction returns went through [finish]. *)
Lemma extract_images_finished (data : json) (depth : nat) (r : images) :
  _extract_images_from_json data depth = Ok (Some r) ->
  exists res, finish res = Some r.
Proof.
  destruct data; cbn [_extract_images_from_json];
    destruct (10 <? depth); try discriminate;
    match goal with
    | |- (res <- ?x ;; _) = _ -> _ => destruct x as [res|e]
    end; cbn [bind]; intros H; try discriminate;
    injection H as H; eauto.
Qed.

(** The two lists generic extraction returns hold no URL twice, and are
    not both empty. *)
Theorem extract_images_lists_deduplicated (data : json) (depth : nat) (r : images) :
  _extract_images_from_json data depth = Ok (Some r) ->
  NoDup (main r) /\ NoDup (detail r) /\ (main r <> [] \/ detail r <> []).
Proof.
  intros H. destruct (extract_images_finished _ _ _ H) as [res Hf].
  unfold finish in Hf. cbn [main detail] in Hf.
  destruct (nonempty (dedup (main res)) || nonempty (dedup (detail res))) eqn:E;
    [|discriminate].
  injection Hf as <-. cbn [main detail].
  repeat split; try apply dedup_NoDup.
  apply orb_true_iff in E as [E|E]; [left|right];
    intros Hnil; rewrite Hnil in E; discriminate.
Qed.

Lemma extract_images_lists_deduplicated_witness :
  NoDup [ Spec.scenario_url ] /\ NoDup (@nil string)
  /\ ([ Spec.scenario_url ] <> [] \/ @nil string <> []).
Proof.
  apply (extract_images_lists_deduplicated Spec.scenario_tree 0
           (mkImages [ Spec.scenario_url ] [] "" None)).
  reflexivity.
Defined.

End MinerResults.

Section MinerValidity.
Import PyStr Py ProductParser.

Lemma candidate_valid (img : json) (u : string) :
  candidate img = Ok (Some u) -> Aux.valid_url u.
Proof.
  unfold candidate, Aux.valid_url. destruct img as [| b | n | s | l | fields];
    try discriminate.
  - destruct (_is_valid_product_image s) eqn:E; intros H; [|discriminate].
    now injection H as <-.
  - destruct (truthy (img_url_of fields)); [|discriminate].
    destruct (_is_valid_product_image_dyn (img_url_of fields)) as [ok|e] eqn:E;
      [|discriminate].
    cbn [bind]. destruct (img_url_of fields) as [| b | n | s | l | fs];
      try discriminate.
    destruct ok; [|discriminate]. intros H. injection H as <-.
    destruct (valid_dyn_true_is_str _ E) as [s' [Hs Hv]].
    now injection Hs as <-.
Qed.

Lemma all_valid_append_main (res : images) (u : string) :
  Aux.all_valid res -> Aux.valid_url u -> Aux.all_valid (append_main res u).
Proof.
  intros [Hm Hd] Hu. split; cbn [append_main main detail]; [|assumption].
  apply Forall_app. split; [assumption | now constructor].
Qed.

Lemma all_valid_append_detail (res : images) (u : string) :
  Aux.all_valid res -> Aux.valid_url u -> Aux.all_valid (append_detail res u).
Proof.
  intros [Hm Hd] Hu. split; cbn [append_detail main detail]; [assumption|].
  apply Forall_app. split; [assumption | now constructor].
Qed.

Lemma all_valid_append_generic (res : images) (u : string) :
  Aux.all_valid res -> Aux.valid_url u -> Aux.all_valid (append_generic res u).
Proof.
  intros H Hu. unfold append_generic.
  destruct (length (main res) <? 5);
    [now apply all_valid_append_main | now apply all_valid_append_detail].
Qed.

Lemma loops_valid (l : list json) :
  forall res r,
    Aux.all_valid res ->
    (main_loop l res = Ok r -> Aux.all_valid r)
    /\ (detail_loop l res = Ok r -> Aux.all_valid r)
    /\ (generic_loop l res = Ok r -> Aux.all_valid r).
Proof.
  induction l as [|img rest IH]; intros res r Hres; cbn [main_loop detail_loop generic_loop].
  - split; [|split]; intros H; now injection H as <-.
  - destruct (candidate img) as [[u|]|e] eqn:E; cbn [bind].
    + apply candidate_valid in E.
      split; [|split]; intros H.
      * exact (proj1 (IH _ r (all_valid_append_main res u Hres E)) H).
      * exact (proj1 (proj2 (IH _ r (all_valid_append_detail res u Hres E))) H).
      * exact (proj2 (proj2 (IH _ r (all_valid_append_generic res u Hres E))) H).
    + split; [|split]; intros H.
      * exact (proj1 (IH res r Hres) H).
      * exact (proj1 (proj2 (IH res r Hres)) H).
      * exact (proj2 (proj2 (IH res r Hres)) H).
    + split; [|split]; discriminate.
Qed.

Lemma scalar_step_valid (key_lower : string) (value : json) (res : images) :
  Aux.all_valid res -> Aux.all_valid (scalar_step key_lower value res).
Proof.
  intros H. unfold scalar_step. destruct value; try assumption.
  destruct (mem key_lower title_keys), (mem key_lower video_keys);
    destruct H; split; assumption.
Qed.

Lemma scan_item_valid (key : string) (value : json) (res r : images) :
  Aux.all_valid res -> scan_item key value res = Ok r -> Aux.all_valid r.
Proof.
  intros Hres. unfold scan_item.
  pose proof (scalar_step_valid (lower key) value res Hres) as H0.
  set (res0 := scalar_step (lower key) value res) in *.
  destruct (main_step (lower key) value res0) as [r1|e] eqn:E1; [|discriminate].
  cbn [bind].
  destruct (detail_step (lower key) value r1) as [r2|e] eqn:E2; [|discriminate].
  cbn [bind]. intros E3.
  assert (H1 : Aux.all_valid r1).
  { unfold main_step in E1.
    destruct (key_matches main_keys (lower key)); [|now injection E1 as <-].
    destruct value as [| b | n | s | l | fields];
      try (now injection E1 as <-).
    - destruct (_is_valid_product_image s) eqn:Ev; injection E1 as <-;
        [now apply all_valid_append_main | assumption].
    - exact (proj1 (loops_valid l res0 r1 H0) E1). }
  assert (H2 : Aux.all_valid r2).
  { unfold detail_step in E2.
    destruct (key_matches detail_keys (lower key)); [|now injection E2 as <-].
    destruct value as [| b | n | s | l | fields];
      try (now injection E2 as <-).
    exact (proj1 (proj2 (loops_valid l r1 r2 H1)) E2). }
  unfold generic_step in E3.
  destruct (key_matches image_keys (lower key)); [|now injection E3 as <-].
  destruct value as [| b | n | s | l | fields];
    try (now injection E3 as <-).
  exact (proj2 (proj2 (loops_valid l r2 r H2)) E3).
Qed.

Lemma merge_valid (res : images) (nested : option images) :
  Aux.all_valid res ->
  (forall n, nested = Some n -> Aux.all_valid n) ->
  Aux.all_valid (merge_nested res nested) /\ Aux.all_valid (merge_lists res nested).
Proof.
  intros [Hm Hd] Hn. destruct nested as [n|]; [|repeat split; assumption].
  destruct (Hn n eq_refl) as [Hnm Hnd].
  repeat split; cbn [merge_nested merge_lists main detail];
    apply Forall_app; split; assumption.
Qed.

Lemma finish_valid (res r : images) :
  Aux.all_valid res -> finish res = Some r -> Aux.all_valid r.
Proof.
  intros [Hm Hd]. unfold finish. cbn [main detail].
  destruct (nonempty (dedup (main res)) || nonempty (dedup (detail res)));
    [|discriminate].
  intros H. injection H as <-. rewrite Forall_forall in Hm, Hd.
  split; cbn [main detail]; apply Forall_forall; intros x Hx;
    apply (proj1 (dedup_In _ _)) in Hx; auto.
Qed.

Lemma empty_images_valid : Aux.all_valid empty_images.
Proof. split; constructor. Qed.

(** Every URL generic extraction returns, in either list and at whatever
    depth it was found, passes the validity predicate. *)
Theorem extract_images_only_valid_urls (data : json) :
  forall depth r,
    _extract_images_from_json data depth = Ok (Some r) -> Aux.all_valid r.
Proof.
  induction data as [| b | n | s | items IH | fields IH] using json_tree_ind;
    intros depth r;
    try (cbn [_extract_images_from_json]; destruct (10 <? depth);
         cbn [bind]; intros H; try discriminate;
         injection H as H; now apply (finish_valid empty_images)).
  - cbn [_extract_images_from_json]. destruct (10 <? depth); [discriminate|].
    match goal with
    | |- context [?elems items empty_images] =>
        assert (Hloop : forall res r', Aux.all_valid res ->
                                       elems items res = Ok r' -> Aux.all_valid r')
    end.
    { induction items as [|item rest IHl]; intros res r' Hres H.
      - now injection H as <-.
      - inversion IH as [|? ? Hhead Htail]; subst.
        simpl in H.
        destruct (_extract_images_from_json item (S depth)) as [nested|e] eqn:En.
        + assert (Hn : forall n, nested = Some n -> Aux.all_valid n).
          { intros n ->. now apply (Hhead (S depth)). }
          destruct (merge_valid res nested Hres Hn) as [_ Hml].
          destruct item; cbn [bind] in H;
            first [ now apply (IHl Htail res r' Hres)
                  | now apply (IHl Htail _ r' Hml) ].
        + destruct item; cbn [bind] in H; try discriminate;
            now apply (IHl Htail res r' Hres). }
    match goal with
    | |- (res <- ?x ;; _) = _ -> _ => destruct x as [res|e] eqn:E
    end; cbn [bind]; intros H; [|discriminate].
    injection H as H. apply (finish_valid res); [|assumption].
    apply (Hloop empty_images res empty_images_valid E).
  - cbn [_extract_images_from_json]. destruct (10 <? depth); [discriminate|].
    match goal with
    | |- context [?loop fields empty_images] =>
        assert (Hloop : forall res r', Aux.all_valid res ->
                                       loop fields res = Ok r' -> Aux.all_valid r')
    end.
    { induction fields as [|[key value] rest IHl]; intros res r' Hres H.
      - now injection H as <-.
      - inversion IH as [|? ? Hhead Htail]; subst. cbn [snd] in Hhead.
        simpl in H.
        destruct (scan_item key value res) as [r1|e1] eqn:E1; [|discriminate].
        cbn [bind] in H.
        pose proof (scan_item_valid key value res r1 Hres E1) as H1.
        destruct (_extract_images_from_json value (S depth)) as [nested|e] eqn:En.
        + assert (Hn : forall n, nested = Some n -> Aux.all_valid n).
          { intros n ->. now apply (Hhead (S depth)). }
          destruct (merge_valid r1 nested H1 Hn) as [Hmn _].
          destruct value; cbn [bind] in H;
            first [ now apply (IHl Htail r1 r' H1)
                  | now apply (IHl Htail _ r' Hmn) ].
        + destruct value; cbn [bind] in H; try discriminate;
            now apply (IHl Htail r1 r' H1). }
    match goal with
    | |- (res <- ?x ;; _) = _ -> _ => destruct x as [res|e] eqn:E
    end; cbn [bind]; intros H; [|discriminate].
    injection H as H. apply (finish_valid res); [|assumption].
    apply (Hloop empty_images res empty_images_valid E).
Qed.

End MinerValidity.

Section MinerMore.
Import PyStr Py ProductParser.

Lemma extract_images_only_valid_urls_witness :
  Aux.all_valid (mkImages [ Spec.scenario_url ] [] "" None).
Proof.
  apply (extract_images_only_valid_urls Spec.scenario_tree 0).
  reflexivity.
Defined.

Lemma extract_images_returns_on_typed_urls_witness :
  exists r, _extract_images_from_json Spec.scenario_tree 0 = Ok r.
Proof.
  apply extract_images_returns_on_typed_urls. reflexivity.
Defined.

(** The text of an empty dict names no image word. *)
Lemma product_like_nonempty (v : json) : Aux.product_like v -> truthy v = true.
Proof.
  intros [Hd Hw]. destruct v as [| b | n | s | l | fields]; try discriminate.
  destruct fields; [discriminate | reflexivity].
Qed.

(** Whatever the targeted search returns is a non-empty dict whose text,
    in lower case, names one of the image words images, img, pic,
    gallery. *)
Theorem find_product_returns_product_like (data : json) :
  forall depth v,
    _find_product_in_router data depth = Some v ->
    Aux.product_like v /\ truthy v = true.
Proof.
  assert (Hgoal : forall depth v,
             _find_product_in_router data depth = Some v -> Aux.product_like v).
  { induction data as [| b | n | s | items IH | fields IH] using json_tree_ind;
      intros depth v;
      try (cbn [_find_product_in_router]; destruct (15 <? depth); discriminate).
    - cbn [_find_product_in_router]. destruct (15 <? depth); [discriminate|].
      induction items as [|item rest IHl]; [discriminate|].
      inversion IH as [|? ? Hhead Htail]; subst.
      simpl.
      destruct (_find_product_in_router item (S depth)) as [v'|] eqn:E.
      + specialize (Hhead (S depth) v' E).
        pose proof (product_like_nonempty v' Hhead) as Ht.
        destruct item; cbn [isinstance_dict isinstance_list orb found];
          try (now apply IHl);
          rewrite Ht; intros H; now injection H as <-.
      + destruct item; cbn [isinstance_dict isinstance_list orb found];
          now apply IHl.
    - cbn [_find_product_in_router]. destruct (15 <? depth); [discriminate|].
      induction fields as [|[key value] rest IHl]; [discriminate|].
      inversion IH as [|? ? Hhead Htail]; subst. cbn [snd] in Hhead.
      simpl.
      match goal with
      | |- context [if ?c then Some value else _] => destruct c eqn:Ec
      end.
      + intros H. injection H as <-.
        change (mem (lower key) container_keys && isinstance_dict value
                && any_in image_words (lower (repr value)) = true) in Ec.
        apply andb_true_iff in Ec as [Ec Hw].
        apply andb_true_iff in Ec as [_ Hd]. now split.
      + destruct (_find_product_in_router value (S depth)) as [v'|] eqn:E.
        * specialize (Hhead (S depth) v' E).
          pose proof (product_like_nonempty v' Hhead) as Ht.
          destruct value; cbn [isinstance_dict isinstance_list orb found];
            try (now apply IHl);
            rewrite Ht; intros H; now injection H as <-.
        * destruct value; cbn [isinstance_dict isinstance_list orb found];
            now apply IHl. }
  intros depth v H. specialize (Hgoal depth v H).
  split; [assumption | now apply product_like_nonempty].
Qed.

Lemma find_product_returns_product_like_witness :
  Aux.product_like Spec.scenario_item /\ truthy Spec.scenario_item = true.
Proof.
  apply (find_product_returns_product_like Spec.scenario_tree 0).
  reflexivity.
Defined.

End MinerMore.

Section MinerDepth.
Import PyStr Py ProductParser.

Lemma scan_item_plain_key (value : json) (res : images) :
  scan_item "a" value res = Ok res.
Proof.
  unfold scan_item, main_step, detail_step, generic_step, scalar_step.
  destruct value; reflexivity.
Qed.

Lemma extract_images_nest (n : nat) (leaf : json) :
  forall depth, 10 < n + depth ->
                _extract_images_from_json (Spec.nest n leaf) depth = Ok None.
Proof.
  induction n as [|n IH]; intros depth H.
  - apply extract_images_depth_bound. simpl in H. lia.
  - destruct (10 <? depth) eqn:E.
    + apply extract_images_depth_bound. now apply Nat.ltb_lt.
    + cbn [Spec.nest _extract_images_from_json]. rewrite E.
      rewrite scan_item_plain_key. cbn [bind].
      rewrite (IH (S depth)) by lia.
      destruct (Spec.nest n leaf); reflexivity.
Qed.

Lemma find_product_nest (n : nat) (leaf : json) :
  forall depth, 15 < n + depth ->
                _find_product_in_router (Spec.nest n leaf) depth = None.
Proof.
  induction n as [|n IH]; intros depth H.
  - apply find_product_depth_bound. simpl in H. lia.
  - destruct (15 <? depth) eqn:E.
    + apply find_product_depth_bound. now apply Nat.ltb_lt.
    + cbn [Spec.nest _find_product_in_router]. rewrite E.
      cbn [lower mem container_keys existsb]. simpl andb.
      rewrite (IH (S depth)) by lia.
      destruct (Spec.nest n leaf); reflexivity.
Qed.

(** What lies more than 10 levels deep is out of reach of generic
    extraction, and what lies more than 15 levels deep is out of reach of
    the targeted search, whatever it is: on a chain of nested objects
    that long each mode returns nothing, without an error. *)
Theorem miner_blind_below_depth_bound (n : nat) (leaf : json) :
  (10 < n -> _extract_images_from_json (Spec.nest n leaf) 0 = Ok None)
  /\ (15 < n -> _find_product_in_router (Spec.nest n leaf) 0 = None).
Proof.
  split; intros H.
  - apply extract_images_nest. lia.
  - apply find_product_nest. lia.
Qed.

Lemma miner_blind_below_depth_bound_witness :
  _extract_images_from_json (Spec.nest 11 Spec.numeric_url_tree) 0 = Ok None
  /\ _find_product_in_router (Spec.nest 16 Spec.scenario_tree) 0 = None.
Proof.
  split.
  - apply (proj1 (miner_blind_below_depth_bound 11 Spec.numeric_url_tree)). lia.
  - apply (proj2 (miner_blind_below_depth_bound 16 Spec.scenario_tree)). lia.
Defined.

End MinerDepth.

(* ================================================================== *)
(** * Classification keeps every harvested URL *)
(* ================================================================== *)

Section ClassificationMore.
Import PyStr ProductParser.

Lemma filter_split_permutation (f : string -> bool) (l : list string) :
  Permutation (filter f l ++ filter (fun u => negb (f u)) l) l.
Proof.
  induction l as [|x l IH]; simpl; [constructor|].
  destruct (f x); simpl.
  - now constructor.
  - apply Permutation_sym, Permutation_cons_app, Permutation_sym, IH.
Qed.

Lemma promote_permutation (m d : list string) :
  Permutation (fst (promote (m, d)) ++ snd (promote (m, d))) (m ++ d).
Proof.
  rewrite promote_first_five.
  destruct m as [|x m], d as [|y d]; cbn [fst snd]; try reflexivity.
  rewrite firstn_skipn. reflexivity.
Qed.

Lemma promote_main_nonempty (m d : list string) :
  m ++ d <> [] -> fst (promote (m, d)) <> [].
Proof.
  rewrite promote_first_five.
  destruct m as [|x m], d as [|y d]; cbn [fst]; simpl; congruence.
Qed.

(** In both strategies the two lists together hold every harvested URL
    exactly as often as it was harvested: classification and promotion
    lose nothing and add nothing. *)
Theorem classification_keeps_every_url (all_images : list string) :
  Permutation (fst (classify_playwright all_images)
               ++ snd (classify_playwright all_images)) all_images
  /\ Permutation (fst (classify_html all_images)
                  ++ snd (classify_html all_images)) all_images.
Proof.
  rewrite classify_playwright_rule, classify_html_rule.
  split; (etransitivity; [apply promote_permutation | apply filter_split_permutation]).
Qed.

(** In both strategies, as soon as one URL was harvested there is a main
    image. *)
Theorem classification_main_nonempty (all_images : list string) :
  all_images <> [] ->
  fst (classify_playwright all_images) <> []
  /\ fst (classify_html all_images) <> [].
Proof.
  intros H. rewrite classify_playwright_rule, classify_html_rule.
  split; apply promote_main_nonempty; intros E;
    apply H; apply Permutation_nil; rewrite <- E;
    apply filter_split_permutation.
Qed.

Lemma classification_main_nonempty_witness :
  fst (classify_playwright Spec.harvested_pair) <> []
  /\ fst (classify_html Spec.harvested_pair) <> [].
Proof.
  apply classification_main_nonempty. discriminate.
Defined.

End ClassificationMore.

(* ================================================================== *)
(** * The wait for the rendered page *)
(* ================================================================== *)

Section Polling.
Import PyStr ProductParser.

Lemma poll_from_spec (content : nat -> result string) (n : nat) :
  forall i k b,
    poll_from content i n = Ok (k, b) ->
    i <= k <= i + n
    /\ (forall j, i <= j < (if b then k - 1 else k) ->
                  exists h, content j = Ok h /\ content_ready h = false)
    /\ (if b
        then i < k /\ exists h, content (k - 1) = Ok h /\ content_ready h = true
        else k = i + n).
Proof.
  induction n as [|n IH]; intros i k b H; cbn [poll_from] in H.
  - injection H as <- <-. split; [lia|]. split; [|lia].
    intros j Hj. lia.
  - destruct (content i) as [h|e] eqn:Ec; [|discriminate]. cbn [bind] in H.
    destruct (content_ready h) eqn:Er.
    + injection H as <- <-. split; [lia|]. split.
      * intros j Hj. lia.
      * split; [lia|]. exists h. replace (S i - 1) with i by lia. auto.
    + destruct (IH (S i) k b H) as [Hk [Hbefore Hlast]].
      split; [lia|]. split.
      * intros j Hj. destruct (Nat.eq_dec j i) as [->|ne]; [eauto|].
        apply Hbefore. lia.
      * destruct b; [|lia]. destruct Hlast as [Hlt Hh]. split; [lia | exact Hh].
Qed.

(** The wait samples the page at most 30 times.  It reports the content
    as loaded exactly when it stopped on a sample that names the image
    host or is longer than 80000 characters, every sample before that one
    having failed the test; it reports it as not loaded only after 30
    samples that all failed the test. *)
Theorem poll_bounded (content : nat -> result string) (k : nat) (b : bool) :
  poll content = Ok (k, b) ->
  k <= 30
  /\ (forall j, j < (if b then k - 1 else k) ->
                exists h, content j = Ok h /\ content_ready h = false)
  /\ (if b
      then 0 < k /\ exists h, content (k - 1) = Ok h /\ content_ready h = true
      else k = 30).
Proof.
  intros H. destruct (poll_from_spec content 30 0 k b H) as [Hk [Hbefore Hlast]].
  split; [lia|]. split.
  - intros j Hj. apply Hbefore. lia.
  - destruct b; [|lia]. destruct Hlast as [Hlt Hh]. split; [lia | exact Hh].
Qed.

Lemma poll_bounded_witness :
  let content (i : nat) : result string :=
    Ok (if i <? 2 then "<html></html>"
        else "<img src='https://p3-aio.ecombdimg.com/obj/a.jpg'>") in
  3 <= 30
  /\ (forall j, j < 3 - 1 ->
                exists h, content j = Ok h /\ content_ready h = false)
  /\ (0 < 3 /\ exists h, content (3 - 1) = Ok h /\ content_ready h = true).
Proof.
  intros content.
  apply (poll_bounded content 3 true). reflexivity.
Defined.

End Polling.

(* ================================================================== *)
(** * Product identifiers *)
(* ================================================================== *)

Section ProductIds.
Import PyStr ProductParser.

Lemma search_lit_digits_unfold (lit s : string) :
  search_lit_digits lit s
  = match Aux.match_here lit s with
    | Some d => Some d
    | None => match s with
              | EmptyString => None
              | String _ s' => search_lit_digits lit s'
              end
    end.
Proof. destruct s; reflexivity. Qed.

(** A match further on in the text is found, here or before. *)
Lemma search_lit_digits_later (lit : string) (n : nat) :
  forall s d, Aux.match_here lit (drop n s) = Some d ->
              search_lit_digits lit s <> None.
Proof.
  induction n as [|n IH]; intros s d H; rewrite search_lit_digits_unfold.
  - cbn [drop] in H. destruct s; cbn [drop] in H; rewrite H; discriminate.
  - destruct s as [|c s]; cbn [drop] in H.
    + rewrite H. discriminate.
    + destruct (Aux.match_here lit (String c s)); [discriminate|].
      eapply IH; eassumption.
Qed.

Lemma search_lit_digits_here (lit s d : string) :
  search_lit_digits lit s = Some d ->
  exists n d', Aux.match_here lit (drop n s) = Some d'.
Proof.
  induction s as [|c s IH]; rewrite search_lit_digits_unfold; intros H.
  - destruct (Aux.match_here lit "") as [d'|] eqn:E; [|discriminate].
    exists 0, d'. exact E.
  - destruct (Aux.match_here lit (String c s)) as [d'|] eqn:E.
    + exists 0, d'. exact E.
    + destruct (IH H) as [n [d' Hn]]. exists (S n), d'. exact Hn.
Qed.

Lemma drop_drop (n m : nat) (s : string) : drop n (drop m s) = drop (m + n) s.
Proof.
  revert s. induction m as [|m IH]; intros s; [reflexivity|].
  destruct s as [|c s]; cbn [drop Nat.add].
  - now destruct n.
  - apply IH.
Qed.

(** Where [product_id=] is followed by a digit, so is [id=]. *)
Lemma product_id_implies_id (s d : string) :
  Aux.match_here "product_id=" s = Some d ->
  Aux.match_here "id=" (drop 8 s) = Some d.
Proof.
  unfold Aux.match_here.
  destruct (prefix "product_id=" s) eqn:E; [|discriminate].
  apply prefix_app in E. revert E.
  generalize (drop (String.length "product_id=") s). intros t ->.
  cbn [String.length drop append prefix].
  destruct (Ascii.ascii_dec "p" "p"); [|congruence].
  destruct (Ascii.ascii_dec "i" "i"); [|congruence].
  destruct (Ascii.ascii_dec "d" "d"); [|congruence].
  destruct (Ascii.ascii_dec "=" "="); [|congruence].
  repeat match goal with
         | |- context [Ascii.ascii_dec ?a ?a] =>
             destruct (Ascii.ascii_dec a a); [|congruence]
         end.
  destruct t; trivial.
Qed.

(** The third pattern, [product_id=(\d+)], never decides the identifier:
    wherever it matches, the second pattern [id=(\d+)], tried before it,
    matches too.  The patterns without the third give the same result on
    every URL. *)
Theorem product_id_pattern_is_shadowed (url : string) :
  first_match id_patterns url
  = first_match [ search_lit_digits "commodity_id=";
                  search_lit_digits "id=";
                  search_long_id ] url.
Proof.
  unfold id_patterns. cbn [first_match].
  destruct (search_lit_digits "commodity_id=" url); [reflexivity|].
  destruct (search_lit_digits "id=" url) eqn:E2; [reflexivity|].
  destruct (search_lit_digits "product_id=" url) as [d|] eqn:E3; [|reflexivity].
  exfalso.
  destruct (search_lit_digits_here _ _ _ E3) as [n [d' Hn]].
  apply product_id_implies_id in Hn. rewrite drop_drop in Hn.
  now apply search_lit_digits_later in Hn.
Qed.

Lemma douyin_link_test_is_one_test_aux (url : string) :
  is_douyin_link url = contains "douyin.com" url.
Proof.
  unfold is_douyin_link.
  destruct (contains "v.douyin.com" url) eqn:E; [|reflexivity].
  change "v.douyin.com" with ("v." ++ "douyin.com")%string in E.
  apply contains_app_r in E. now rewrite E.
Qed.

End ProductIds.

Section IdShapes.
Import PyStr ProductParser.

Lemma span_digits_all_digits (s d r : string) :
  span_digits s = (d, r) -> Aux.all_digits d = true.
Proof.
  revert d r. induction s as [|c s IH]; intros d r H; cbn [span_digits] in H.
  - now injection H as <- <-.
  - destruct (is_digit c) eqn:E.
    + destruct (span_digits s) as [d' r'] eqn:Es. injection H as <- <-.
      cbn [Aux.all_digits]. rewrite E. now apply (IH d' r').
    + now injection H as <- <-.
Qed.

Lemma match_here_digits (lit s d : string) :
  Aux.match_here lit s = Some d -> d <> "" /\ Aux.all_digits d = true.
Proof.
  unfold Aux.match_here. destruct (prefix lit s); [|discriminate].
  destruct (span_digits (drop (String.length lit) s)) as [d' r] eqn:E.
  apply span_digits_all_digits in E.
  destruct d'; [discriminate|]. intros H. injection H as <-.
  split; [discriminate | assumption].
Qed.

Lemma search_lit_digits_digits (lit s d : string) :
  search_lit_digits lit s = Some d -> d <> "" /\ Aux.all_digits d = true.
Proof.
  induction s as [|c s IH]; rewrite search_lit_digits_unfold.
  - destruct (Aux.match_here lit "") eqn:E; [|discriminate].
    intros H. injection H as <-. now apply match_here_digits in E.
  - destruct (Aux.match_here lit (String c s)) eqn:E; [|exact IH].
    intros H. injection H as <-. now apply match_here_digits in E.
Qed.

Lemma search_long_id_digits (s d : string) :
  search_long_id s = Some d -> 15 <= String.length d /\ Aux.all_digits d = true.
Proof.
  induction s as [|c s IH]; cbn [search_long_id]; [discriminate|].
  destruct (c =? "/")%char; [|exact IH].
  destruct (span_digits s) as [d' r] eqn:E.
  destruct ((15 <=? String.length d') && ends_id r) eqn:Ec; [|exact IH].
  intros H. injection H as <-.
  apply andb_true_iff in Ec as [Hlen _]. apply Nat.leb_le in Hlen.
  split; [assumption | now apply span_digits_all_digits in E].
Qed.

Lemma first_match_digits (url d : string) :
  first_match id_patterns url = Some d -> d <> "" /\ Aux.all_digits d = true.
Proof.
  unfold id_patterns. cbn [first_match].
  destruct (search_lit_digits "commodity_id=" url) eqn:E1.
  { intros H. injection H as <-. now apply search_lit_digits_digits in E1. }
  destruct (search_lit_digits "id=" url) eqn:E2.
  { intros H. injection H as <-. now apply search_lit_digits_digits in E2. }
  destruct (search_lit_digits "product_id=" url) eqn:E3.
  { intros H. injection H as <-. now apply search_lit_digits_digits in E3. }
  destruct (search_long_id url) eqn:E4; [|discriminate].
  intros H. injection H as <-. apply search_long_id_digits in E4 as [Hlen Hd].
  split; [|assumption]. intros ->. simpl in Hlen. lia.
Qed.

(** An identifier [extract_product_id] returns is the sentinel
    [SHORT_LINK] or a non-empty string of digits; the sentinel comes only
    for a URL that contains [douyin.com]. *)
Theorem extract_product_id_shape (url d : string) :
  extract_product_id url = Ok d ->
  (d = SHORT_LINK /\ contains "douyin.com" url = true)
  \/ (d <> "" /\ Aux.all_digits d = true).
Proof.
  unfold extract_product_id.
  destruct (first_match id_patterns url) as [d'|] eqn:E.
  - intros H. injection H as <-. right. now apply first_match_digits in E.
  - destruct (is_douyin_link url) eqn:El; [|discriminate].
    intros H. injection H as <-. left. split; [reflexivity|].
    now rewrite douyin_link_test_is_one_test_aux in El.
Qed.

End IdShapes.

Section ProductChain.
Import PyStr ProductParser.

Lemma extract_product_id_shape_witness :
  ("3456789012345678901" = SHORT_LINK
   /\ contains "douyin.com" Spec.exhausted_product_url = true)
  \/ ("3456789012345678901" <> "" /\ Aux.all_digits "3456789012345678901" = true).
Proof.
  apply (extract_product_id_shape Spec.exhausted_product_url). reflexivity.
Defined.

(** The product id the rendered-DOM strategy works with, after the
    recovery from the final URL of the page, is [unknown] or a non-empty
    string of digits: the sentinel [SHORT_LINK] never reaches it. *)
Theorem rendered_product_id_shape (url pid final_url : string) :
  extract_product_id url = Ok pid ->
  let final :=
    recover_product_id
      (if negb (pid =? SHORT_LINK)%string then pid else "unknown") final_url in
  final = "unknown" \/ (final <> "" /\ Aux.all_digits final = true).
Proof.
  intros H final. subst final. unfold recover_product_id.
  destruct (pid =? SHORT_LINK)%string eqn:Es; cbn [negb].
  - change ("unknown" =? "unknown")%string with true. cbv iota.
    destruct (search_lit_digits "id=" final_url) as [d|] eqn:E; [|now left].
    right. now apply search_lit_digits_digits in E.
  - unfold extract_product_id in H.
    destruct (first_match id_patterns url) as [d|] eqn:E.
    + injection H as <-. apply first_match_digits in E.
      destruct (d =? "unknown")%string eqn:Eu; [|now right].
      apply String.eqb_eq in Eu. subst d. destruct E as [_ E]. discriminate.
    + destruct (is_douyin_link url); [|discriminate].
      injection H as <-. rewrite String.eqb_refl in Es. discriminate.
Qed.

Lemma rendered_product_id_shape_witness :
  let final :=
    recover_product_id
      (if negb (SHORT_LINK =? SHORT_LINK)%string then SHORT_LINK else "unknown")
      "https://haohuo.jinritemai.com/views/product/item2?id=3456789012345678901" in
  final = "unknown" \/ (final <> "" /\ Aux.all_digits final = true).
Proof.
  apply (rendered_product_id_shape "https://v.douyin.com/iRNBho6u/"). reflexivity.
Defined.

(** The product call returns only what one of its two strategies
    returned, the static one being asked only when the rendered one gave
    nothing; and it raises nothing but its two [ValueError]s, the first
    before any strategy runs. *)
Theorem product_parse_outcome
        (pw html : string -> string -> option ProductInfo) (url : string) :
  match parse pw html url with
  | Ok r =>
      exists pid,
        extract_product_id url = Ok pid
        /\ let arg := if negb (pid =? SHORT_LINK)%string then pid else "unknown" in
           pw url arg = Some r
           \/ (pw url arg = None /\ html url pid = Some r)
  | Err e =>
      (e = ValueError msg_no_product_id
       /\ extract_product_id url = Err e)
      \/ (e = ValueError msg_no_product_info
          /\ exists pid, extract_product_id url = Ok pid /\ html url pid = None)
  end.
Proof.
  unfold parse.
  destruct (extract_product_id url) as [pid|e] eqn:E; cbn [bind].
  - destruct (pw url (if negb (pid =? SHORT_LINK)%string then pid else "unknown"))
      as [r|] eqn:Ep.
    + exists pid. split; [reflexivity|]. left. exact Ep.
    + destruct (html url pid) as [r|] eqn:Eh.
      * exists pid. split; [reflexivity|]. right. split; assumption.
      * right. split; [reflexivity|]. exists pid. split; [reflexivity | assumption].
  - left. split; [|reflexivity].
    unfold extract_product_id in E.
    destruct (first_match id_patterns url); [discriminate|].
    destruct (is_douyin_link url); [discriminate|]. now injection E as <-.
Qed.

End ProductChain.

(* ================================================================== *)
(** * The rewriting of the watermark toggle *)
(* ================================================================== *)

Section Toggle.
Import PyStr.

(** A text without the letter w that starts the rewritten string starts
    the original string too. *)
Lemma prefix_through_rewrite (q : string) :
  Aux.lacks "w" q = true ->
  forall s, prefix q (replace_from "watermark=1" "watermark=0" 0 s) = true ->
            prefix q s = true.
Proof.
  induction q as [|a q IH]; intros Hq s H; [now destruct s|].
  cbn [Aux.lacks] in Hq. apply andb_true_iff in Hq as [Ha Hq].
  destruct s as [|c s]; [discriminate|].
  cbn [replace_from] in H.
  destruct (prefix "watermark=1" (String c s)).
  - cbn [append prefix] in H.
    destruct (Ascii.ascii_dec a "w") as [->|ne]; [discriminate|discriminate].
  - cbn [prefix] in *. destruct (Ascii.ascii_dec a c); [|discriminate].
    now apply IH.
Qed.

(** After the rewriting no enabled toggle is left. *)
Lemma rewrite_from_no_toggle (s : string) :
  forall k, contains "watermark=1"
                     (replace_from "watermark=1" "watermark=0" k s) = false.
Proof.
  induction s as [|c s IH]; intros k; [reflexivity|].
  cbn [replace_from]. destruct k as [|k]; [|apply IH].
  destruct (prefix "watermark=1" (String c s)) eqn:E.
  - cbn [append String.length Nat.sub]. rewrite !contains_cons, IH. reflexivity.
  - rewrite contains_cons, IH, orb_false_r.
    destruct (prefix "watermark=1"
                     (String c (replace_from "watermark=1" "watermark=0" 0 s)))
      eqn:E'; [|reflexivity].
    cbn [prefix] in E, E'.
    destruct (Ascii.ascii_dec "w" c); [|discriminate].
    apply prefix_through_rewrite in E'; [congruence | reflexivity].
Qed.

Lemma rewrite_toggle_no_toggle (url : string) :
  contains "watermark=1" (Aux.rewrite_toggle url) = false.
Proof. apply rewrite_from_no_toggle. Qed.

(** The test [if 'watermark' in url] of the selector changes nothing: a
    URL without the word is left as it is by the rewriting too. *)
Lemma rewrite_toggle_guarded (url : string) :
  (if contains "watermark" url then Aux.rewrite_toggle url else url)
  = Aux.rewrite_toggle url.
Proof.
  destruct (contains "watermark" url) eqn:E; [reflexivity|].
  symmetry. apply replace_absent; [discriminate|].
  destruct (contains "watermark=1" url) eqn:E1; [|reflexivity].
  change "watermark=1" with ("watermark" ++ "=1")%string in E1.
  apply contains_app_l in E1. congruence.
Qed.

End Toggle.

(* ================================================================== *)
(** * The selection of the play address *)
(* ================================================================== *)

Section SelectorMore.
Import PyStr Py VideoParser.

Lemma get_present_nonempty (fields : list (string * json)) (k : string)
      (default v : json) :
  get fields k default = v -> v <> default -> fields <> [].
Proof. intros H Hne ->. now apply Hne. Qed.

Lemma play_addr_loop_strings (us : list string) :
  play_addr_loop (map JStr us) = Ok None
  \/ exists u, In u us
               /\ play_addr_loop (map JStr us)
                  = Ok (Some (JStr (Aux.rewrite_toggle u))).
Proof.
  induction us as [|u us IH]; [now left|].
  cbn [map play_addr_loop str_in bind].
  assert (Hurl : (if contains "watermark" u
                  then attr_replace "watermark=1" "watermark=0" (JStr u)
                  else Ok (JStr u)) = Ok (JStr (Aux.rewrite_toggle u))).
  { rewrite <- (rewrite_toggle_guarded u).
    now destruct (contains "watermark" u). }
  rewrite Hurl. cbn [bind str_in].
  destruct (contains "aweme.snssdk.com" (Aux.rewrite_toggle u)); cbn [bind orb].
  - right. exists u. split; [now left | reflexivity].
  - destruct (contains "v.douyin.com" (Aux.rewrite_toggle u)); cbn [negb].
    + destruct IH as [IH | [u' [Hin IH]]]; [now left|].
      right. exists u'. split; [now right | exact IH].
    + right. exists u. split; [now left | reflexivity].
Qed.

(** With a non-empty [play_addr] list of strings, the selector returns
    one of its entries with the toggle rewritten, whatever [bit_rate] and
    [download_addr] hold; the returned URL contains no [watermark=1]. *)
Theorem play_addr_decides (fields vf pf : list (string * json)) (us : list string) :
  get fields "video" (JObj []) = JObj vf ->
  get vf "play_addr" (JObj []) = JObj pf ->
  get pf "url_list" (JArr []) = JArr (map JStr us) ->
  us <> [] ->
  exists u,
    In u us
    /\ _get_no_watermark_url (JObj fields) = Ok (JStr (Aux.rewrite_toggle u))
    /\ contains "watermark=1" (Aux.rewrite_toggle u) = false.
Proof.
  intros Hv Hp Hl Hne.
  assert (Hpf : truthy (JObj pf) = true).
  { destruct pf; [|reflexivity]. cbn in Hl. injection Hl as Hl.
    destruct us; [contradiction | discriminate]. }
  assert (Hfrom : exists u, In u us
                            /\ from_play_addr (JObj vf)
                               = Ok (Some (JStr (Aux.rewrite_toggle u)))).
  { unfold from_play_addr. cbn [attr_get bind]. rewrite Hp, Hpf.
    cbn [attr_get bind]. rewrite Hl. cbn [iter bind].
    destruct (play_addr_loop_strings us) as [E | [u [Hin E]]]; rewrite E; cbn [bind].
    - destruct us as [|u us]; [contradiction|]. exists u. split; [now left|].
      reflexivity.
    - exists u. split; [assumption | reflexivity]. }
  destruct Hfrom as [u [Hin E]]. exists u. split; [assumption|].
  split; [|apply rewrite_toggle_no_toggle].
  unfold _get_no_watermark_url. cbn [attr_get bind]. rewrite Hv, E. reflexivity.
Qed.

Lemma play_addr_decides_witness :
  exists u,
    In u [ Spec.wm_url ]
    /\ _get_no_watermark_url Spec.wm_detail = Ok (JStr (Aux.rewrite_toggle u))
    /\ contains "watermark=1" (Aux.rewrite_toggle u) = false.
Proof.
  apply (play_addr_decides _
           [ ("play_addr", JObj [ ("url_list", JArr [ JStr Spec.wm_url ]) ]) ]
           [ ("url_list", JArr [ JStr Spec.wm_url ]) ]);
    [reflexivity | reflexivity | reflexivity | discriminate].
Defined.

(** Without a usable [play_addr] and [bit_rate], the selector returns the
    first entry of the [download_addr] list as it is: this last resort is
    not rewritten. *)
Theorem download_addr_is_last_resort
        (fields vf df : list (string * json)) (x : json) (rest : list json) :
  get fields "video" (JObj []) = JObj vf ->
  truthy (get vf "play_addr" (JObj [])) = false ->
  truthy (get vf "bit_rate" (JArr [])) = false ->
  get vf "download_addr" (JObj []) = JObj df ->
  get df "url_list" (JArr []) = JArr (x :: rest) ->
  _get_no_watermark_url (JObj fields) = Ok x.
Proof.
  intros Hv Hp Hb Hd Hl.
  assert (Hdf : truthy (JObj df) = true).
  { destruct df; [discriminate | reflexivity]. }
  unfold _get_no_watermark_url, from_play_addr, from_bit_rate, from_download_addr.
  cbn [attr_get bind]. rewrite Hv. cbn [attr_get bind].
  rewrite Hp, Hb. cbn [bind]. rewrite Hd, Hdf. cbn [attr_get bind].
  rewrite Hl. reflexivity.
Qed.

Lemma download_addr_is_last_resort_witness :
  _get_no_watermark_url
    (JObj [ ("video",
             JObj [ ("download_addr",
                     JObj [ ("url_list", JArr [ JStr Spec.wm_url ]) ]) ]) ])
  = Ok (JStr Spec.wm_url).
Proof.
  apply (download_addr_is_last_resort _
           [ ("download_addr", JObj [ ("url_list", JArr [ JStr Spec.wm_url ]) ]) ]
           [ ("url_list", JArr [ JStr Spec.wm_url ]) ] _ []);
    reflexivity.
Defined.

(** A record without a usable play address, bit-rate list and download
    address, and so a record without a [video] key, makes the selector
    raise [Cannot find video URL]. *)
Theorem no_address_raises (fields vf : list (string * json)) :
  get fields "video" (JObj []) = JObj vf ->
  truthy (get vf "play_addr" (JObj [])) = false ->
  truthy (get vf "bit_rate" (JArr [])) = false ->
  truthy (get vf "download_addr" (JObj [])) = false ->
  _get_no_watermark_url (JObj fields) = Err (PyException "Cannot find video URL").
Proof.
  intros Hv Hp Hb Hd.
  unfold _get_no_watermark_url, from_play_addr, from_bit_rate, from_download_addr.
  cbn [attr_get bind]. rewrite Hv. cbn [attr_get bind].
  rewrite Hp, Hb, Hd. reflexivity.
Qed.

Lemma no_address_raises_witness :
  _get_no_watermark_url (JObj [ ("aweme_id", JStr "7123456789012345678") ])
  = Err (PyException "Cannot find video URL").
Proof. apply (no_address_raises _ []); reflexivity. Defined.

End SelectorMore.

Section BitRate.
Import PyStr Py VideoParser.

Lemma keyed_entries (rs : list (Z * string)) :
  keyed (map Aux.rate_entry rs) = Ok (map Aux.keyed_entry rs).
Proof.
  induction rs as [|r rs IH]; [reflexivity|].
  cbn [map keyed]. rewrite IH. reflexivity.
Qed.

Lemma insert_desc_entries (r : Z * string) (rs : list (Z * string)) :
  exists rs',
    insert_desc (Aux.keyed_entry r) (map Aux.keyed_entry rs)
    = Ok (map Aux.keyed_entry rs')
    /\ hd_error rs' = Some (match hd_error rs with
                            | None => r
                            | Some b => if (fst r <? fst b)%Z then b else r
                            end).
Proof.
  induction rs as [|y rs IH].
  - exists [r]. split; reflexivity.
  - cbn [map insert_desc]. cbn [Aux.keyed_entry fst py_lt as_int bind hd_error].
    destruct (fst r <? fst y)%Z.
    + destruct IH as [rs' [E _]].
      change (JNum (fst r), Aux.rate_entry r) with (Aux.keyed_entry r).
      rewrite E. cbn [bind].
      exists (y :: rs'). split; reflexivity.
    + exists (r :: y :: rs). split; reflexivity.
Qed.

Lemma sort_desc_entries (rs : list (Z * string)) :
  exists rs',
    sort_desc (map Aux.keyed_entry rs) = Ok (map Aux.keyed_entry rs')
    /\ hd_error rs' = Aux.best rs.
Proof.
  induction rs as [|r rs IH].
  - exists []. split; reflexivity.
  - destruct IH as [rs1 [E1 H1]].
    cbn [map sort_desc]. rewrite E1. cbn [bind].
    destruct (insert_desc_entries r rs1) as [rs2 [E2 H2]].
    exists rs2. split; [assumption|].
    rewrite H2, H1. cbn [Aux.best].
    destruct (Aux.best rs) as [b|]; [|reflexivity].
    now destruct (fst r <? fst b)%Z.
Qed.

(** Without a usable [play_addr], the selector takes the play address of
    the [bit_rate] entry with the highest rate, the first of them when
    several have it, and rewrites its toggle. *)
Theorem highest_bit_rate_wins
        (fields vf : list (string * json)) (rs : list (Z * string)) (b : Z * string) :
  get fields "video" (JObj []) = JObj vf ->
  truthy (get vf "play_addr" (JObj [])) = false ->
  get vf "bit_rate" (JArr []) = JArr (map Aux.rate_entry rs) ->
  Aux.best rs = Some b ->
  _get_no_watermark_url (JObj fields) = Ok (JStr (Aux.rewrite_toggle (snd b))).
Proof.
  intros Hv Hp Hb Hbest.
  unfold _get_no_watermark_url, from_play_addr, from_bit_rate.
  cbn [attr_get bind]. rewrite Hv. cbn [attr_get bind].
  rewrite Hp. cbn [bind]. rewrite Hb.
  assert (Ht : truthy (JArr (map Aux.rate_entry rs)) = true).
  { destruct rs; [discriminate | reflexivity]. }
  rewrite Ht. cbn [iter bind]. rewrite keyed_entries. cbn [bind].
  destruct (sort_desc_entries rs) as [rs' [E Hhd]]. rewrite E. cbn [bind].
  rewrite Hbest in Hhd. destruct rs' as [|b' rs']; [discriminate|].
  injection Hhd as ->. reflexivity.
Qed.

Lemma highest_bit_rate_wins_witness :
  _get_no_watermark_url
    (JObj [ ("video",
             JObj [ ("bit_rate",
                     JArr (map Aux.rate_entry
                             [ (500%Z, "https://a.example/low?watermark=1");
                               (900%Z, "https://a.example/high?watermark=1");
                               (900%Z, "https://a.example/high2") ])) ]) ])
  = Ok (JStr (Aux.rewrite_toggle "https://a.example/high?watermark=1")).
Proof.
  apply (highest_bit_rate_wins _
           [ ("bit_rate",
              JArr (map Aux.rate_entry
                      [ (500%Z, "https://a.example/low?watermark=1");
                        (900%Z, "https://a.example/high?watermark=1");
                        (900%Z, "https://a.example/high2") ])) ]
           [ (500%Z, "https://a.example/low?watermark=1");
             (900%Z, "https://a.example/high?watermark=1");
             (900%Z, "https://a.example/high2") ]
           (900%Z, "https://a.example/high?watermark=1"));
    reflexivity.
Defined.

End BitRate.

(* ================================================================== *)
(** * The records the video extraction builds *)
(* ================================================================== *)

Section VideoRecords.
Import PyStr Py VideoParser.

Lemma get_absent (fields : list (string * json)) (k : string) (default : json) :
  lookup k fields = None -> get fields k default = default.
Proof. unfold get. now intros ->. Qed.

(** An item without the keys [author], [video], [music] and [statistics]
    gives a record, not an error: the id, the description and the
    creation time are taken from the item, every URL and the author are
    empty, the duration and the four counters are 0. *)
Theorem mobile_item_defaults (fields : list (string * json)) :
  lookup "author" fields = None ->
  lookup "video" fields = None ->
  lookup "music" fields = None ->
  lookup "statistics" fields = None ->
  _extract_video_info_v2 (JObj fields)
  = Ok (mkVideoInfo (get fields "aweme_id" (JStr "")) (get fields "desc" (JStr ""))
                    (JStr "") (JStr "") (JStr "") (JStr "") (JStr "")
                    (JNum 0) (get fields "create_time" (JNum 0)) Aux.zero_stats).
Proof.
  intros Ha Hv Hm Hs.
  unfold _extract_video_info_v2, cover_of, music_of, stats_of.
  cbn [attr_get bind].
  rewrite (get_absent _ "author" _ Ha), (get_absent _ "video" _ Hv),
    (get_absent _ "music" _ Hm), (get_absent _ "statistics" _ Hs).
  reflexivity.
Qed.

Lemma mobile_item_defaults_witness :
  _extract_video_info_v2
    (JObj [ ("aweme_id", JStr "7123456789012345678"); ("desc", JStr "hello") ])
  = Ok (mkVideoInfo (JStr "7123456789012345678") (JStr "hello")
                    (JStr "") (JStr "") (JStr "") (JStr "") (JStr "")
                    (JNum 0) (JNum 0) Aux.zero_stats).
Proof.
  apply (mobile_item_defaults
           [ ("aweme_id", JStr "7123456789012345678"); ("desc", JStr "hello") ]);
    reflexivity.
Defined.

Lemma stats_of_keys (item : json) (stats : list (string * json)) :
  stats_of item = Ok stats ->
  map fst stats = [ "digg_count"; "comment_count"; "share_count"; "collect_count" ].
Proof.
  unfold stats_of. intros H. bind_inv H. now injection H as <-.
Qed.

(** Every record the two extraction functions build has the same four
    statistics, in the same order: likes, comments, shares, collects. *)
Theorem statistics_have_four_counters (item : json) (info : VideoInfo) :
  _extract_video_info_v2 item = Ok info \/ _extract_video_info item = Ok info ->
  map fst (statistics info)
  = [ "digg_count"; "comment_count"; "share_count"; "collect_count" ].
Proof.
  intros [H|H].
  - unfold _extract_video_info_v2 in H. bind_inv H. injection H as <-.
    cbn [statistics]. eapply stats_of_keys; eassumption.
  - unfold _extract_video_info in H. bind_inv H. injection H as <-.
    cbn [statistics]. eapply stats_of_keys; eassumption.
Qed.

Lemma statistics_have_four_counters_witness :
  map fst Aux.zero_stats
  = [ "digg_count"; "comment_count"; "share_count"; "collect_count" ].
Proof.
  apply (statistics_have_four_counters
           (JObj [ ("aweme_id", JStr "7123456789012345678"); ("desc", JStr "hello") ])
           (mkVideoInfo (JStr "7123456789012345678") (JStr "hello")
                        (JStr "") (JStr "") (JStr "") (JStr "") (JStr "")
                        (JNum 0) (JNum 0) Aux.zero_stats)).
  left. reflexivity.
Defined.

End VideoRecords.

(* ================================================================== *)
(** * The video call *)
(* ================================================================== *)

Section VideoChain.
Import PyStr Py VideoParser.

(** A video id [extract_video_id] returns is a non-empty string of
    digits. *)
Theorem extract_video_id_shape (url d : string) :
  extract_video_id url = Some d -> d <> "" /\ Aux.all_digits d = true.
Proof.
  unfold extract_video_id.
  destruct (search_lit_digits "/video/" url) eqn:E1.
  { intros H. injection H as <-. now apply search_lit_digits_digits in E1. }
  destruct (search_lit_digits "modal_id=" url) eqn:E2.
  { intros H. injection H as <-. now apply search_lit_digits_digits in E2. }
  apply search_lit_digits_digits.
Qed.

Lemma extract_video_id_shape_witness :
  "7123456789012345678" <> "" /\ Aux.all_digits "7123456789012345678" = true.
Proof.
  apply (extract_video_id_shape Spec.exhausted_video_url). reflexivity.
Defined.

(** A record the web extraction builds holds, as its video URL, what the
    selector returned for the same record: when the selector raises, no
    record is built. *)
Theorem web_record_has_selected_url (aweme_detail : json) (info : VideoInfo) :
  _extract_video_info aweme_detail = Ok info ->
  _get_no_watermark_url aweme_detail = Ok (video_url info).
Proof.
  intros H. unfold _extract_video_info in H. bind_inv H.
  injection H as <-. cbn [video_url]. reflexivity.
Qed.

Lemma web_record_has_selected_url_witness :
  _get_no_watermark_url Spec.wm_detail
  = Ok (JStr "https://aweme.snssdk.com/aweme/v1/playwm/?video_id=v0200fg10000&ratio=720p&watermark=0").
Proof.
  apply (web_record_has_selected_url Spec.wm_detail
           (mkVideoInfo (JStr "7123456789012345678") (JStr "") (JStr "") (JStr "")
                        (JStr "")
                        (JStr "https://aweme.snssdk.com/aweme/v1/playwm/?video_id=v0200fg10000&ratio=720p&watermark=0")
                        (JStr "") (JNum 0) (JNum 0) Aux.zero_stats)).
  reflexivity.
Defined.

(** What the video call returns is what one of its strategies returned,
    a later one being reached only when the earlier ones gave nothing;
    and it raises one of three errors only: the failed resolution of a
    short link, the missing video id, the failure of the webpage
    strategy. *)
Theorem video_parse_outcome (w : world) (url : string) :
  match parse w url with
  | Ok r =>
      exists real_url,
        resolve w url = Ok real_url
        /\ (try_share w real_url = Some r
            \/ (try_share w real_url = None
                /\ exists vid,
                    extract_video_id real_url = Some vid
                    /\ (try_mobile w vid = Some r
                        \/ (try_mobile w vid = None
                            /\ (try_web w vid = Some r
                                \/ (try_web w vid = None
                                    /\ webpage w vid = Ok r))))))
  | Err e =>
      (is_short_link url = true
       /\ exists e0, http_final_url w url = Err e0
                     /\ e = PyException ("Failed to resolve short URL: " ++ exn_msg e0)%string)
      \/ (exists real_url,
             resolve w url = Ok real_url
             /\ extract_video_id real_url = None
             /\ e = ValueError (msg_no_video_id real_url))
      \/ (exists vid e0,
             webpage w vid = Err e0
             /\ e = PyException ("Failed to parse from webpage: " ++ exn_msg e0)%string)
  end.
Proof.
  unfold parse.
  destruct (resolve w url) as [real_url|e] eqn:Er; cbn [bind].
  - destruct (try_share w real_url) as [r|] eqn:Es.
    { exists real_url. split; [reflexivity|]. now left. }
    destruct (extract_video_id real_url) as [vid|] eqn:Ei.
    + rewrite (extract_video_id_nonempty _ _ Ei). cbn [or_empty].
      destruct (try_mobile w vid) as [r|] eqn:Em.
      { exists real_url. split; [reflexivity|]. right. split; [assumption|].
        exists vid. split; [exact Ei|]. now left. }
      destruct (try_web w vid) as [r|] eqn:Ew.
      { exists real_url. split; [reflexivity|]. right. split; [assumption|].
        exists vid. split; [exact Ei|]. right. split; [assumption|]. now left. }
      unfold _parse_from_webpage. destruct (webpage w vid) as [r|e0] eqn:Ep.
      * exists real_url. split; [reflexivity|]. right. split; [assumption|].
        exists vid. split; [exact Ei|]. right. split; [assumption|].
        right. split; assumption.
      * right. right. exists vid, e0. split; [assumption | reflexivity].
    + cbn [no_id]. right. left. exists real_url.
      split; [reflexivity|]. split; [exact Ei | reflexivity].
  - left. unfold resolve in Er.
    destruct (is_short_link url); [|discriminate]. split; [reflexivity|].
    unfold get_real_url in Er.
    destruct (http_final_url w url) as [u|e0]; [discriminate|].
    exists e0. split; [reflexivity|]. now injection Er as <-.
Qed.

End VideoChain.

(* ================================================================== *)
(** * Generic extraction loses no image of a list *)
(* ================================================================== *)

Section MinerComplete.
Import PyStr Py ProductParser.

Lemma holds_append (res : images) (u v : string) :
  Aux.holds u res ->
  Aux.holds u (append_main res v) /\ Aux.holds u (append_detail res v)
  /\ Aux.holds u (append_generic res v).
Proof.
  intros [H|H]; unfold append_generic; destruct (length (main res) <? 5);
    unfold Aux.holds; cbn [append_main append_detail main detail];
    rewrite ?in_app_iff; tauto.
Qed.

Lemma loops_keep (u : string) (l : list json) :
  forall res r,
    Aux.holds u res ->
    (main_loop l res = Ok r -> Aux.holds u r)
    /\ (detail_loop l res = Ok r -> Aux.holds u r)
    /\ (generic_loop l res = Ok r -> Aux.holds u r).
Proof.
  induction l as [|img rest IH]; intros res r Hres;
    cbn [main_loop detail_loop generic_loop].
  - split; [|split]; intros H; now injection H as <-.
  - destruct (candidate img) as [[v|]|e]; cbn [bind].
    + destruct (holds_append res u v Hres) as [Hm [Hd Hg]].
      split; [|split]; intros H.
      * exact (proj1 (IH _ r Hm) H).
      * exact (proj1 (proj2 (IH _ r Hd)) H).
      * exact (proj2 (proj2 (IH _ r Hg)) H).
    + split; [|split]; intros H.
      * exact (proj1 (IH res r Hres) H).
      * exact (proj1 (proj2 (IH res r Hres)) H).
      * exact (proj2 (proj2 (IH res r Hres)) H).
    + split; [|split]; discriminate.
Qed.

(** The loop of the generic keys files every valid string of its list. *)
Lemma generic_loop_adds (u : string) (l : list json) :
  In (JStr u) l -> _is_valid_product_image u = true ->
  forall res r, generic_loop l res = Ok r -> Aux.holds u r.
Proof.
  intros Hin Hv. induction l as [|img rest IH]; [contradiction|].
  intros res r H. cbn [generic_loop] in H.
  destruct Hin as [->|Hin].
  - cbn [candidate bind] in H. rewrite Hv in H.
    apply (proj2 (proj2 (loops_keep u rest (append_generic res u) r
                           ltac:(unfold append_generic, Aux.holds;
                                 destruct (length (main res) <? 5);
                                 cbn [append_main append_detail main detail];
                                 rewrite in_app_iff; simpl; tauto)))).
    exact H.
  - destruct (candidate img) as [c|e]; [|discriminate]. cbn [bind] in H.
    eapply IH; eassumption.
Qed.

Lemma scalar_step_keeps (u key_lower : string) (value : json) (res : images) :
  Aux.holds u res -> Aux.holds u (scalar_step key_lower value res).
Proof.
  intros H. unfold scalar_step. destruct value; try assumption.
  destruct (mem key_lower title_keys), (mem key_lower video_keys); exact H.
Qed.

Lemma steps_keep (u key_lower : string) (value : json) (res r : images) :
  Aux.holds u res ->
  (main_step key_lower value res = Ok r -> Aux.holds u r)
  /\ (detail_step key_lower value res = Ok r -> Aux.holds u r)
  /\ (generic_step key_lower value res = Ok r -> Aux.holds u r).
Proof.
  intros Hres. unfold main_step, detail_step, generic_step.
  destruct (key_matches main_keys key_lower),
           (key_matches detail_keys key_lower),
           (key_matches image_keys key_lower);
    destruct value as [| b | n | s | l | fields];
    (split; [|split]); intros H;
    try (injection H as <-; first [ assumption | now apply holds_append ]);
    try (destruct (_is_valid_product_image s); injection H as <-;
         first [ assumption | now apply holds_append ]);
    first [ exact (proj1 (loops_keep u l res r Hres) H)
          | exact (proj1 (proj2 (loops_keep u l res r Hres)) H)
          | exact (proj2 (proj2 (loops_keep u l res r Hres)) H) ].
Qed.

Lemma scan_item_keeps (u key : string) (value : json) (res r : images) :
  Aux.holds u res -> scan_item key value res = Ok r -> Aux.holds u r.
Proof.
  intros Hres. unfold scan_item.
  pose proof (scalar_step_keeps u (lower key) value res Hres) as H0.
  destruct (main_step (lower key) value (scalar_step (lower key) value res))
    as [r1|e] eqn:E1; [|discriminate]. cbn [bind].
  pose proof (proj1 (steps_keep u _ _ _ r1 H0) E1) as H1.
  destruct (detail_step (lower key) value r1) as [r2|e] eqn:E2; [|discriminate].
  cbn [bind].
  pose proof (proj1 (proj2 (steps_keep u _ _ _ r2 H1)) E2) as H2.
  intros E3. exact (proj2 (proj2 (steps_keep u _ _ _ r H2)) E3).
Qed.

Lemma scan_item_adds (u key : string) (l : list json) (res r : images) :
  key_matches image_keys (lower key) = true ->
  In (JStr u) l -> _is_valid_product_image u = true ->
  scan_item key (JArr l) res = Ok r -> Aux.holds u r.
Proof.
  intros Hk Hin Hv. unfold scan_item.
  destruct (main_step (lower key) (JArr l) (scalar_step (lower key) (JArr l) res))
    as [r1|e]; [|discriminate]. cbn [bind].
  destruct (detail_step (lower key) (JArr l) r1) as [r2|e]; [|discriminate].
  cbn [bind]. unfold generic_step. rewrite Hk.
  now apply generic_loop_adds.
Qed.

Lemma merge_nested_keeps (u : string) (res : images) (nested : option images) :
  Aux.holds u res -> Aux.holds u (merge_nested res nested).
Proof.
  intros H. destruct nested as [n|]; [|assumption].
  unfold Aux.holds in *. cbn [merge_nested main detail].
  rewrite !in_app_iff. tauto.
Qed.

(** A valid URL that stands as a string in a list under a generic
    image-list key of a dict is never lost: when generic extraction
    returns for that dict, within the depth bound, the URL is among the
    main or the detail images of the result. *)
Theorem listed_image_is_returned
        (fields : list (string * json)) (key u : string) (l : list json)
        (depth : nat) (out : option images) :
  depth <= 10 ->
  In (key, JArr l) fields ->
  key_matches image_keys (lower key) = true ->
  In (JStr u) l ->
  _is_valid_product_image u = true ->
  _extract_images_from_json (JObj fields) depth = Ok out ->
  exists r, out = Some r /\ (In u (main r) \/ In u (detail r)).
Proof.
  intros Hdepth Hfield Hkey Hin Hv.
  cbn [_extract_images_from_json].
  assert (E : (10 <? depth) = false) by (apply Nat.ltb_ge; lia).
  rewrite E.
  match goal with
  | |- context [?loop fields empty_images] =>
      assert (Hloop : forall fs res r',
                 loop fs res = Ok r' ->
                 (Aux.holds u res -> Aux.holds u r')
                 /\ (In (key, JArr l) fs -> Aux.holds u r'))
  end.
  { induction fs as [|[k v] rest IHl]; intros res r' H.
    - injection H as <-. split; [auto | contradiction].
    - simpl in H.
      destruct (scan_item k v res) as [r1|e1] eqn:E1; [|discriminate].
      cbn [bind] in H.
      match type of H with
      | bind ?x _ = _ => destruct x as [r2|e2] eqn:E2
      end; [|discriminate]. cbn [bind] in H.
      assert (Hkeep : Aux.holds u r1 -> Aux.holds u r2).
      { destruct (isinstance_dict v || isinstance_list v).
        - destruct (_extract_images_from_json v (S depth)) as [nested|e];
            [|discriminate].
          cbn [bind] in E2. injection E2 as <-. apply merge_nested_keeps.
        - injection E2 as <-. auto. }
      destruct (IHl r2 r' H) as [Hk1 Hk2].
      split.
      + intros Hres. apply Hk1, Hkeep. eapply scan_item_keeps; eassumption.
      + intros [Heq|Hin']; [|auto].
        injection Heq as -> ->. apply Hk1, Hkeep.
        eapply scan_item_adds; eassumption. }
  match goal with
  | |- (res <- ?x ;; _) = _ -> _ => destruct x as [res|e] eqn:El
  end; cbn [bind]; intros H; [|discriminate].
  injection H as <-.
  destruct (proj2 (Hloop fields empty_images res El) Hfield) as [Hm|Hd].
  - unfold finish. cbn [main detail].
    assert (Hin' : In u (dedup (main res))) by now apply dedup_In.
    destruct (dedup (main res)) as [|x xs] eqn:Ed; [contradiction|].
    cbn [nonempty orb]. eexists. split; [reflexivity|]. left. exact Hin'.
  - unfold finish. cbn [main detail].
    assert (Hin' : In u (dedup (detail res))) by now apply dedup_In.
    destruct (dedup (detail res)) as [|x xs] eqn:Ed; [contradiction|].
    rewrite orb_true_r. eexists. split; [reflexivity|]. right. exact Hin'.
Qed.

Lemma listed_image_is_returned_witness :
  exists r, Some (mkImages [ Spec.scenario_url ] [] "" None) = Some r
            /\ (In Spec.scenario_url (main r) \/ In Spec.scenario_url (detail r)).
Proof.
  apply (listed_image_is_returned
           [ ("images", JArr [ JStr Spec.scenario_url ]) ]
           "images" Spec.scenario_url [ JStr Spec.scenario_url ] 0);
    first [ reflexivity | lia | (simpl; tauto) ].
Defined.

End MinerComplete.

Section ClassificationRules.
Import PyStr ProductParser.

(** A harvested URL that passes the keyword test of its strategy is a
    main image: promotion never pushes it out. *)
Theorem keyword_url_is_main (all_images : list string) (u : string) :
  In u all_images ->
  (is_main_playwright u = true -> In u (fst (classify_playwright all_images)))
  /\ (is_main_html u = true -> In u (fst (classify_html all_images))).
Proof.
  intros Hin. rewrite classify_playwright_rule, classify_html_rule.
  split; intros Hm; rewrite promote_first_five.
  - assert (H : In u (filter is_main_playwright all_images))
      by (apply filter_In; auto).
    destruct (filter is_main_playwright all_images); [contradiction|].
    exact H.
  - assert (H : In u (filter is_main_html all_images))
      by (apply filter_In; auto).
    destruct (filter is_main_html all_images); [contradiction|].
    exact H.
Qed.

Lemma keyword_url_is_main_witness :
  (is_main_playwright "https://p3.byteimg.com/origin/b.jpg" = true ->
   In "https://p3.byteimg.com/origin/b.jpg"
      (fst (classify_playwright Spec.harvested_pair)))
  /\ (is_main_html "https://p3.byteimg.com/origin/b.jpg" = true ->
      In "https://p3.byteimg.com/origin/b.jpg"
         (fst (classify_html Spec.harvested_pair))).
Proof.
  apply keyword_url_is_main. simpl. tauto.
Defined.

End ClassificationRules.

Section MobileRecord.
Import PyStr Py VideoParser.

(** The record of the mobile extraction holds the first play address of
    the item with both rewritings done: the toggle disabled, then the
    path marker [playwm] turned into [play]. *)
Theorem mobile_record_url_is_rewritten
        (fields vf pf : list (string * json)) (u : string) (rest : list json)
        (info : VideoInfo) :
  get fields "video" (JObj []) = JObj vf ->
  get vf "play_addr" (JObj []) = JObj pf ->
  get pf "url_list" (JArr []) = JArr (JStr u :: rest) ->
  _extract_video_info_v2 (JObj fields) = Ok info ->
  video_url info = JStr (Spec.without_watermark u).
Proof.
  intros Hv Hp Hl H.
  assert (Hpf : truthy (JObj pf) = true).
  { destruct pf; [discriminate | reflexivity]. }
  unfold _extract_video_info_v2 in H. cbn [attr_get bind] in H.
  rewrite Hv in H. cbn [attr_get bind] in H.
  rewrite Hp, Hpf in H. cbn [attr_get bind] in H.
  rewrite Hl in H. cbn [truthy index0 attr_replace bind] in H.
  bind_inv H. injection H as <-. reflexivity.
Qed.

Lemma mobile_record_url_is_rewritten_witness :
  video_url
    (mkVideoInfo (JStr "7123456789012345678") (JStr "") (JStr "") (JStr "") (JStr "")
                 (JStr (Spec.without_watermark Spec.wm_url)) (JStr "")
                 (JNum 0) (JNum 0) Aux.zero_stats)
  = JStr (Spec.without_watermark Spec.wm_url).
Proof.
  apply (mobile_record_url_is_rewritten
           [ ("aweme_id", JStr "7123456789012345678");
             ("video", JObj [ ("play_addr",
                               JObj [ ("url_list", JArr [ JStr Spec.wm_url ]) ]) ]) ]
           [ ("play_addr", JObj [ ("url_list", JArr [ JStr Spec.wm_url ]) ]) ]
           [ ("url_list", JArr [ JStr Spec.wm_url ]) ]
           Spec.wm_url []);
    [reflexivity | reflexivity | reflexivity | vm_compute; reflexivity].
Defined.

End MobileRecord.

(* ================================================================== *)
(** * The generic image-list keys, at the level of the function *)
(* ================================================================== *)

Section GenericKeys.
Import PyStr Py ProductParser.

(** On a dict, the function is its loop over the items, from the empty
    result, then the removal of duplicates. *)
Lemma extract_dict_scan (fields : list (string * json)) (depth : nat) :
  _extract_images_from_json (JObj fields) depth
  = if 10 <? depth then Ok None
    else (res <- scan_fields depth fields empty_images ;; Ok (finish res)).
Proof.
  cbn [_extract_images_from_json]. destruct (10 <? depth); [reflexivity|].
  match goal with
  | |- (res <- ?loop fields empty_images ;; _) = _ =>
      assert (Hloop : forall fs res, loop fs res = scan_fields depth fs res)
  end.
  { induction fs as [|[k v] rest IH]; intros res; [reflexivity|].
    cbn [scan_fields].
    destruct (scan_item k v res) as [r1|e]; cbn [bind]; [|reflexivity].
    destruct (isinstance_dict v || isinstance_list v); cbn [bind];
      [|apply IH].
    destruct (_extract_images_from_json v (S depth)) as [nested|e];
      cbn [bind]; [apply IH | reflexivity]. }
  now rewrite Hloop.
Qed.

(** The loop over the items of a dict goes through them in order. *)
Lemma scan_fields_app (depth : nat) (pre post : list (string * json))
      (res : images) :
  scan_fields depth (pre ++ post) res
  = (res0 <- scan_fields depth pre res ;; scan_fields depth post res0).
Proof.
  revert res. induction pre as [|[k v] pre IH]; intros res; [reflexivity|].
  cbn [app scan_fields].
  destruct (scan_item k v res) as [r1|e]; cbn [bind]; [|reflexivity].
  destruct (isinstance_dict v || isinstance_list v); cbn [bind]; [|apply IH].
  destruct (_extract_images_from_json v (S depth)) as [nested|e];
    cbn [bind]; [apply IH | reflexivity].
Qed.

(** What the loop body takes from a well-typed entry of an image list:
    the URL the entry offers, when it is valid. *)
Lemma candidate_listed (img : json) :
  Spec.typed_entry img = true ->
  candidate img
  = Ok (match Spec.listed_url img with
        | Some s => if _is_valid_product_image s then Some s else None
        | None => None
        end).
Proof.
  destruct img as [| b | n | s | l | fields]; try reflexivity.
  unfold Spec.typed_entry, candidate, Spec.listed_url, img_url_of.
  destruct (py_or (get fields "url" JNull)
                  (py_or (get fields "src" JNull) (get fields "img" JNull)))
    as [| b | n | s | l | fs] eqn:E; intros H.
  - reflexivity.
  - destruct b; [discriminate | reflexivity].
  - cbn [truthy] in *. destruct (n =? 0)%Z; [reflexivity | discriminate].
  - cbn [truthy]. destruct (s =? "")%string eqn:Es.
    + apply String.eqb_eq in Es. subst s. reflexivity.
    + cbn [negb]. unfold _is_valid_product_image_dyn. cbn [truthy].
      rewrite Es. reflexivity.
  - destruct l; [reflexivity | discriminate].
  - destruct fs; [reflexivity | discriminate].
Qed.

(** The candidates of a list of well-typed entries are its valid listed
    URLs. *)
Lemma candidates_listed (l : list json) :
  forallb Spec.typed_entry l = true ->
  Spec.candidates l = Ok (Spec.valid_listed l).
Proof.
  induction l as [|img rest IH]; intros H; [reflexivity|].
  cbn [forallb] in H. apply andb_true_iff in H as [Himg Hrest].
  cbn [Spec.candidates Spec.valid_listed].
  rewrite (candidate_listed img Himg), (IH Hrest). cbn [bind].
  destruct (Spec.listed_url img) as [s|]; [|reflexivity].
  destruct (_is_valid_product_image s); reflexivity.
Qed.

(** The loops of the main-image keys and of the detail-image keys append
    every valid listed URL. *)
Lemma main_loop_listed (l : list json) (res : images) :
  forallb Spec.typed_entry l = true ->
  main_loop l res
  = Ok (mkImages (main res ++ Spec.valid_listed l) (detail res)
                 (title res) (video res)).
Proof.
  revert res. induction l as [|img rest IH]; intros res H.
  - destruct res. cbn [main_loop Spec.valid_listed main detail title video].
    now rewrite app_nil_r.
  - cbn [forallb] in H. apply andb_true_iff in H as [Himg Hrest].
    cbn [main_loop Spec.valid_listed].
    rewrite (candidate_listed img Himg). cbn [bind].
    destruct (Spec.listed_url img) as [s|]; [|now apply IH].
    destruct (_is_valid_product_image s); [|now apply IH].
    rewrite (IH _ Hrest). cbn [append_main main detail title video].
    now rewrite <- app_assoc.
Qed.

Lemma detail_loop_listed (l : list json) (res : images) :
  forallb Spec.typed_entry l = true ->
  detail_loop l res
  = Ok (mkImages (main res) (detail res ++ Spec.valid_listed l)
                 (title res) (video res)).
Proof.
  revert res. induction l as [|img rest IH]; intros res H.
  - destruct res. cbn [detail_loop Spec.valid_listed main detail title video].
    now rewrite app_nil_r.
  - cbn [forallb] in H. apply andb_true_iff in H as [Himg Hrest].
    cbn [detail_loop Spec.valid_listed].
    rewrite (candidate_listed img Himg). cbn [bind].
    destruct (Spec.listed_url img) as [s|]; [|now apply IH].
    destruct (_is_valid_product_image s); [|now apply IH].
    rewrite (IH _ Hrest). cbn [append_detail main detail title video].
    now rewrite <- app_assoc.
Qed.

(** The steps of a key that contains a generic image-list name, on a list
    of well-typed entries. *)
Lemma scan_item_listed (key : string) (l : list json) (res : images) :
  key_matches image_keys (lower key) = true ->
  forallb Spec.typed_entry l = true ->
  scan_item key (JArr l) res
  = Ok (Spec.distribute (Spec.before_generic key res (Spec.valid_listed l))
                        (Spec.valid_listed l)).
Proof.
  intros Hi Ht.
  unfold scan_item, main_step, detail_step, generic_step, Spec.before_generic.
  cbn [scalar_step]. rewrite Hi.
  destruct (key_matches main_keys (lower key));
    destruct (key_matches detail_keys (lower key));
    repeat first [ rewrite (main_loop_listed _ _ Ht)
                 | rewrite (detail_loop_listed _ _ Ht)
                 | progress cbn [bind main detail title video] ];
    rewrite generic_loop_distribute, (candidates_listed l Ht); cbn [bind];
    destruct res; reflexivity.
Qed.

(** C9, as the specification states it, fails: under the key
    [cover_images], which contains the generic name [images], seven valid
    URLs give seven main images, not five, and the same seven detail
    images: the key also contains the main-image name [cover], whose step
    appends every valid URL to the main-image list, and the step of the
    generic keys then finds that list with more than 5 entries. *)
Lemma cover_images_counterexample :
  key_matches image_keys (lower "cover_images") = true
  /\ forallb _is_valid_product_image Spec.seven_urls = true
  /\ _extract_images_from_json
       (JObj [ ("cover_images", JArr (map JStr Spec.seven_urls)) ]) 0
     = Ok (Some (mkImages Spec.seven_urls Spec.seven_urls "" None))
  /\ ~ Spec.generic_rule_as_stated "cover_images" Spec.seven_urls.
Proof.
  assert (Hkey : key_matches image_keys (lower "cover_images") = true)
    by (vm_compute; reflexivity).
  assert (Hvalid : forallb _is_valid_product_image Spec.seven_urls = true)
    by (vm_compute; reflexivity).
  assert (Hrun : _extract_images_from_json
                   (JObj [ ("cover_images", JArr (map JStr Spec.seven_urls)) ]) 0
                 = Ok (Some (mkImages Spec.seven_urls Spec.seven_urls "" None)))
    by (vm_compute; reflexivity).
  repeat (split; [assumption|]).
  intros H. specialize (H Hkey Hvalid). rewrite Hrun in H.
  vm_compute in H. discriminate.
Qed.

(** C9 (amended).  In generic extraction, at a dict within the depth
    bound, for a key that contains a generic image-list name (images,
    imgs, image_list, pic_list, gallery, photos) and whose value is a list
    of well-typed entries: the valid URLs of the list are appended to the
    main-image list while that list has fewer than 5 entries at this
    level of the recursion, and every later one to the detail-image list.
    The count starts from what the items before the key have left and
    from what the key itself has added: a key that also contains a
    main-image name has put every valid URL of the list in the main-image
    list, without a bound, and a key that also contains a detail-image
    name has put them in the detail-image list.  The recursive call on
    the list and the items after the key go on from the lists so filled. *)
Theorem generic_key_fills_main_up_to_five
        (depth : nat) (pre post : list (string * json)) (key : string)
        (l : list json) :
  depth <= 10 ->
  key_matches image_keys (lower key) = true ->
  forallb Spec.typed_entry l = true ->
  _extract_images_from_json (JObj (pre ++ (key, JArr l) :: post)) depth
  = (res0 <- scan_fields depth pre empty_images ;;
     nested <- _extract_images_from_json (JArr l) (S depth) ;;
     let us := Spec.valid_listed l in
     let filled := Spec.distribute (Spec.before_generic key res0 us) us in
     res1 <- scan_fields depth post (merge_nested filled nested) ;;
     Ok (finish res1)).
Proof.
  intros Hdepth Hkey Htyped.
  rewrite extract_dict_scan.
  assert (E : (10 <? depth) = false) by (apply Nat.ltb_ge; lia).
  rewrite E, scan_fields_app.
  destruct (scan_fields depth pre empty_images) as [res0|e]; cbn [bind];
    [|reflexivity].
  cbn [scan_fields]. rewrite (scan_item_listed key l res0 Hkey Htyped).
  cbn [bind isinstance_dict isinstance_list orb].
  destruct (_extract_images_from_json (JArr l) (S depth)) as [nested|e];
    cbn [bind]; reflexivity.
Qed.

(** Under [title] and then [images], seven valid URLs: five main images
    and two detail images; under [title] and then [cover_images], the
    seven of them in both lists. *)
Lemma generic_key_fills_main_up_to_five_witness :
  _extract_images_from_json
    (JObj ([ ("title", JStr "T") ]
           ++ ("images", JArr (map JStr Spec.seven_urls)) :: [])) 0
  = Ok (Some (mkImages (firstn 5 Spec.seven_urls) (skipn 5 Spec.seven_urls)
                       "T" None))
  /\ _extract_images_from_json
       (JObj ([ ("title", JStr "T") ]
              ++ ("cover_images", JArr (map JStr Spec.seven_urls)) :: [])) 0
     = Ok (Some (mkImages Spec.seven_urls Spec.seven_urls "T" None)).
Proof.
  split.
  - rewrite (generic_key_fills_main_up_to_five
               0 [ ("title", JStr "T") ] [] "images" (map JStr Spec.seven_urls));
      [ vm_compute; reflexivity | lia
      | vm_compute; reflexivity | vm_compute; reflexivity ].
  - rewrite (generic_key_fills_main_up_to_five
               0 [ ("title", JStr "T") ] [] "cover_images"
               (map JStr Spec.seven_urls));
      [ vm_compute; reflexivity | lia
      | vm_compute; reflexivity | vm_compute; reflexivity ].
Defined.

End GenericKeys.
